(** * Authorization and authentication plug-ins: union authorizer,
      Keystone authorizer, Keystone Basic-auth authenticator.

    A shallow embedding of
      - pkg/auth/authorizer/union          (unionAuthzHandler.Authorize),
      - pkg/auth/authorizer/keystone       (keystoneAuthorizer, OpenstackClient),
      - plugin/pkg/auth/authenticator/request/keystone
                                           (KeystoneAuthenticator, OpenstackClient),
    with the results proved about them.

    Conventions.  A Go [string] is a [string] of bytes ([ascii]).  A Go
    [error] value is an [option error], [None] being [nil].  Calls that
    leave the process (other authorizers, the identity provider) run in
    a state monad over a world [W] that stands for everything such a
    call can change or observe; a caller that hands back the world it
    was given has made no such call. *)

From Stdlib Require Import Ascii NArith Lia.
From stdpp Require Import base option list strings gmap.

(** ** The state monad of collaborator calls *)

Definition State (W A : Type) : Type := W → A * W.

Global Instance State_ret {W} : MRet (State W) := λ A x w, (x, w).
Global Instance State_bind {W} : MBind (State W) :=
  λ A B f m w, let '(x, w') := m w in f x w'.

(** ** Errors *)

Module Errors.

(** The error values that reach a caller of these packages:
    [errors.New(s)], a base64 [CorruptInputError], and the aggregate of
    pkg/util/errors. *)
#[local] Unset Elimination Schemes.
Inductive error : Type :=
| errorString (s : string)
| CorruptInputError
| aggregate (errs : list error).
#[local] Set Elimination Schemes.

(** Modelled from the spec: [errors.NewAggregate] of pkg/util/errors is
    missing from the sources.  The spec has the union authorizer return,
    on exhaustion, "a single error" that aggregates "all collected
    per-authorizer errors (order preserved, duplicates allowed)", and
    for an empty list "an aggregated-failure result with zero underlying
    errors" that is not the no-error value. *)
Definition NewAggregate (errlist : list error) : option error :=
  Some (aggregate errlist).

Section Message.

(** What separates two members' messages in an aggregate's message. *)
Variable sep : string.

Fixpoint join (ms : list string) : string :=
  match ms with
  | [] => ""
  | [m] => m
  | m :: ms' => m +:+ sep +:+ join ms'
  end.

(** Modelled from the spec: the [Error()] method of the aggregate is
    missing from the sources; its message "concatenates/aggregates all
    collected per-authorizer errors", here joined by [sep].  The message
    of a [CorruptInputError] is given without its byte offset. *)
Fixpoint Error (e : error) : string :=
  match e with
  | errorString s => s
  | CorruptInputError => "illegal base64 data"
  | aggregate errs => join (map Error errs)
  end.

End Message.

(** [ms] occur in [s] one after the other, without overlap. *)
Fixpoint occurs_in_order (ms : list string) (s : string) : Prop :=
  match ms with
  | [] => True
  | m :: ms' => ∃ pre post, s = pre +:+ m +:+ post ∧ occurs_in_order ms' post
  end.

End Errors.
Import Errors.

(** ** authorizer.Attributes *)

(** The two getters of the [authorizer.Attributes] interface that the
    authorizers below call. *)
Record Attributes : Type := {
  GetUserName : string;
  GetNamespace : string
}.

(** ** pkg/auth/authorizer/union *)

Module Union.

Section Handler.
Context {W : Type}.

(** [authorizer.Authorizer]: one method, [Authorize(a) error]. *)
Definition Authorizer : Type := Attributes → State W (option error).

Definition unionAuthzHandler : Type := list Authorizer.

Definition New (authorizationHandlers : list Authorizer) : unionAuthzHandler :=
  authorizationHandlers.

(** [errors.NewAggregate] of pkg/util/errors, which is not among the
    sources: [Authorize] is given for any such function. *)
Variable NewAggregate : list error → option error.

(** The [for ... range] loop of [Authorize] over the handlers left,
    with [errlist] as collected so far. *)
Fixpoint Authorize_range (handlers : list Authorizer) (a : Attributes)
    (errlist : list error) : State W (option error) :=
  match handlers with
  | [] => mret (NewAggregate errlist)
  | currAuthzHandler :: rest =>
      err ← currAuthzHandler a;
      match err with
      | Some e => Authorize_range rest a (errlist ++ [e])
      | None => mret None
      end
  end.

Definition Authorize (authzHandler : unionAuthzHandler) (a : Attributes)
    : State W (option error) :=
  Authorize_range authzHandler a [].

End Handler.

(** The members of [handlers], invoked one after the other from the
    world [w], all deny: their errors in order and the world they leave
    behind.  [None] when one of them grants. *)
Fixpoint denials {W : Type} (handlers : list (Authorizer (W := W)))
    (a : Attributes) (w : W) : option (list error * W) :=
  match handlers with
  | [] => Some ([], w)
  | h :: rest =>
      match h a w with
      | (Some e, w1) => '(errs, w2) ← denials rest a w1; Some (e :: errs, w2)
      | (None, _) => None
      end
  end.

(** Call-count instrumentation: the world gets a log of calls, and
    member [i] adds [i] to it each time it is invoked. *)
Definition counted {W : Type} (i : nat) (h : Authorizer (W := W))
    : Authorizer (W := W * list nat) :=
  λ a '(w, log), let '(err, w') := h a w in (err, (w', log ++ [i])).

Fixpoint instrument_from {W : Type} (i : nat)
    (handlers : list (Authorizer (W := W)))
    : unionAuthzHandler (W := W * list nat) :=
  match handlers with
  | [] => []
  | h :: rest => counted i h :: instrument_from (S i) rest
  end.

Definition instrument {W : Type} (handlers : list (Authorizer (W := W)))
    : unionAuthzHandler (W := W * list nat) :=
  instrument_from 0 handlers.

(** A member with a fixed verdict that leaves the world alone. *)
Definition always {W : Type} (verdict : option error) : Authorizer (W := W) :=
  λ _, mret verdict.

End Union.

(** ** The Go library calls of the authenticator *)

Module strings.

(** Every byte of [s] passes the test [p]. *)
Fixpoint every (p : ascii → bool) (s : string) : bool :=
  match s with
  | "" => true
  | String c s' => p c && every p s'
  end.

(** [strings.HasPrefix(s, prefix)]. *)
Definition HasPrefix (s prefix : string) : bool := String.prefix prefix s.

(** White space "as defined by Unicode" ([unicode.IsSpace]), by the
    length of its UTF-8 encoding: U+0009..U+000D and U+0020; U+0085 and
    U+00A0; U+1680, U+2000..U+200A, U+2028, U+2029, U+202F, U+205F and
    U+3000. *)
Definition space1 (c : ascii) : bool :=
  match c with
  | "009" | "010" | "011" | "012" | "013" | " " => true
  | _ => false
  end%char.

Definition space2 (c1 c2 : ascii) : bool :=
  let n1 := N_of_ascii c1 in
  let n2 := N_of_ascii c2 in
  ((n1 =? 0xC2) && ((n2 =? 0x85) || (n2 =? 0xA0)))%N.

Definition space3 (c1 c2 c3 : ascii) : bool :=
  let n1 := N_of_ascii c1 in
  let n2 := N_of_ascii c2 in
  let n3 := N_of_ascii c3 in
  (((n1 =? 0xE1) && (n2 =? 0x9A) && (n3 =? 0x80))
   || ((n1 =? 0xE2) && (n2 =? 0x80)
       && (((0x80 <=? n3) && (n3 <=? 0x8A))
           || (n3 =? 0xA8) || (n3 =? 0xA9) || (n3 =? 0xAF)))
   || ((n1 =? 0xE2) && (n2 =? 0x81) && (n3 =? 0x9F))
   || ((n1 =? 0xE3) && (n2 =? 0x80) && (n3 =? 0x80)))%N.

(** Dropping the white-space runes at the head of [s]; [w2] and [w3]
    recognise the two- and three-byte ones in the order the bytes are
    met. *)
Fixpoint trim_head (w2 : ascii → ascii → bool)
    (w3 : ascii → ascii → ascii → bool) (s : string) : string :=
  match s with
  | "" => ""
  | String c1 s1 =>
      if space1 c1 then trim_head w2 w3 s1 else
      match s1 with
      | "" => s
      | String c2 s2 =>
          if w2 c1 c2 then trim_head w2 w3 s2 else
          match s2 with
          | "" => s
          | String c3 s3 => if w3 c1 c2 c3 then trim_head w2 w3 s3 else s
          end
      end
  end.

Definition TrimLeft_space (s : string) : string := trim_head space2 space3 s.

(** From the end the bytes of a rune are met last byte first. *)
Definition TrimRight_space (s : string) : string :=
  String.rev (trim_head (λ c2 c1, space2 c1 c2)
                        (λ c3 c2 c1, space3 c1 c2 c3) (String.rev s)).

(** [strings.TrimSpace(s)]. *)
Definition TrimSpace (s : string) : string :=
  TrimRight_space (TrimLeft_space s).

(** [strings.Split(s, sep)] for a separator [sep] of one byte: the
    pieces of [s] between the occurrences of [sep], at least one. *)
Fixpoint Split (s : string) (sep : ascii) : list string :=
  match s with
  | "" => [""]
  | String c s' =>
      if Ascii.eqb c sep then "" :: Split s' sep
      else match Split s' sep with
           | piece :: pieces => String c piece :: pieces
           | [] => [String c ""]
           end
  end.

(** [s] before and after the first [sep], when there is one. *)
Fixpoint cut (s : string) (sep : ascii) : option (string * string) :=
  match s with
  | "" => None
  | String c s' =>
      if Ascii.eqb c sep then Some ("", s')
      else '(before, after) ← cut s' sep; Some (String c before, after)
  end.

(** [strings.SplitN(s, sep, n)] for a separator of one byte and
    [n >= 0]: at most [n] pieces, the last one the unsplit rest. *)
Fixpoint SplitN (s : string) (sep : ascii) (n : nat) : list string :=
  match n with
  | 0 => []
  | 1 => [s]
  | S n' =>
      match cut s sep with
      | Some (before, after) => before :: SplitN after sep n'
      | None => [s]
      end
  end.

(** [strings.ToLower(s)] as far as a comparison with an ASCII string
    can tell: an ASCII capital becomes its small letter, and the two
    runes outside ASCII whose lower case is an ASCII letter, U+0130 and
    U+212A, become "i" and "k".  Every other byte from 0x80 on stays,
    where Go writes some rune outside ASCII. *)
Definition lower1 (c : ascii) : ascii :=
  let n := N_of_ascii c in
  if ((0x41 <=? n) && (n <=? 0x5A))%N then ascii_of_N (n + 0x20) else c.

Fixpoint ToLower (s : string) : string :=
  match s with
  | "" => ""
  | String c1 s1 =>
      match N_of_ascii c1, s1 with
      | 0xC4%N, String c2 s2 =>
          if (N_of_ascii c2 =? 0xB0)%N then String "i" (ToLower s2)
          else String c1 (ToLower s1)
      | 0xE2%N, String c2 (String c3 s3) =>
          if ((N_of_ascii c2 =? 0x84) && (N_of_ascii c3 =? 0xAA))%N
          then String "k" (ToLower s3)
          else String c1 (ToLower s1)
      | _, _ => String (lower1 c1) (ToLower s1)
      end
  end.

End strings.

Module base64.

(** [encodeStd], the alphabet of [base64.StdEncoding]. *)
Definition encodeStd : string :=
  "ABCDEFGHIJKLMNOPQRSTUVWXYZabcdefghijklmnopqrstuvwxyz0123456789+/".

Definition padChar : ascii := "="%char.

(** [enc.encode[i]] for [i < 64]. *)
Definition encode (i : N) : ascii :=
  default "A"%char (String.get (N.to_nat i) encodeStd).

Fixpoint index_from (i : N) (c : ascii) (s : string) : option N :=
  match s with
  | "" => None
  | String c' s' => if Ascii.eqb c c' then Some i else index_from (i + 1) c s'
  end.

(** [enc.decodeMap[c]], with [None] for its 0xFF. *)
Definition decodeMap (c : ascii) : option N := index_from 0 c encodeStd.

(** The characters of an encoding: the alphabet and the padding. *)
Definition is_base64 (c : ascii) : bool :=
  match decodeMap c with
  | Some _ => true
  | None => Ascii.eqb c padChar
  end.

(** [byte(x)]: the low eight bits. *)
Definition byte (x : N) : ascii := ascii_of_N (N.land x 0xFF).

Definition sextet (val : N) (shift : N) : ascii :=
  encode (N.land (N.shiftr val shift) 0x3F).

(** [StdEncoding.EncodeToString(src)]. *)
Fixpoint EncodeToString (src : string) : string :=
  match src with
  | "" => ""
  | String b0 "" =>
      let val := N.shiftl (N_of_ascii b0) 16 in
      String (sextet val 18) (String (sextet val 12)
        (String padChar (String padChar "")))
  | String b0 (String b1 "") =>
      let val := N.lor (N.shiftl (N_of_ascii b0) 16)
                       (N.shiftl (N_of_ascii b1) 8) in
      String (sextet val 18) (String (sextet val 12)
        (String (sextet val 6) (String padChar "")))
  | String b0 (String b1 (String b2 rest)) =>
      let val := N.lor (N.lor (N.shiftl (N_of_ascii b0) 16)
                              (N.shiftl (N_of_ascii b1) 8))
                       (N_of_ascii b2) in
      String (sextet val 18) (String (sextet val 12)
        (String (sextet val 6) (String (sextet val 0)
          (EncodeToString rest))))
  end.

(** The 24 bits of a quantum from its four 6-bit values. *)
Definition quantum (d0 d1 d2 d3 : N) : N :=
  N.lor (N.lor (N.lor (N.shiftl d0 18) (N.shiftl d1 12)) (N.shiftl d2 6)) d3.

Definition is_newline (c : ascii) : bool :=
  match c with "010" | "013" => true | _ => false end%char.

Fixpoint removeNewlines (s : string) : string :=
  match s with
  | "" => ""
  | String c s' =>
      if is_newline c then removeNewlines s' else String c (removeNewlines s')
  end.

(** Decoding once the new lines are gone: quanta of four characters,
    the last one possibly padded to four by one or two [padChar]. *)
Fixpoint decode (s : string) : option string :=
  match s with
  | "" => Some ""
  | String c0 (String c1 (String c2 (String c3 rest))) =>
      match decodeMap c0, decodeMap c1 with
      | Some d0, Some d1 =>
          match decodeMap c2, decodeMap c3 with
          | Some d2, Some d3 =>
              let val := quantum d0 d1 d2 d3 in
              out ← decode rest;
              Some (String (byte (N.shiftr val 16))
                     (String (byte (N.shiftr val 8))
                       (String (byte val) out)))
          | Some d2, None =>
              let val := quantum d0 d1 d2 0 in
              if Ascii.eqb c3 padChar && String.eqb rest ""
              then Some (String (byte (N.shiftr val 16))
                          (String (byte (N.shiftr val 8)) ""))
              else None
          | None, _ =>
              let val := quantum d0 d1 0 0 in
              if Ascii.eqb c2 padChar && Ascii.eqb c3 padChar
                 && String.eqb rest ""
              then Some (String (byte (N.shiftr val 16)) "")
              else None
          end
      | _, _ => None
      end
  | _ => None
  end.

(** [StdEncoding.DecodeString(s)]: new lines ([\r], [\n]) are ignored,
    padding is required, anything after it is an error.  With an error
    come the bytes decoded so far, which no caller here reads; the model
    returns none. *)
Definition DecodeString (s : string) : string * option error :=
  match decode (removeNewlines s) with
  | Some payload => (payload, None)
  | None => ("", Some CorruptInputError)
  end.

End base64.

(** A plain byte: no white space, no new line, and no byte of a rune
    outside ASCII. *)
Definition plain (c : ascii) : bool :=
  negb (strings.space1 c) && negb (base64.is_newline c)
  && negb (Ascii.eqb c " ") && (N_of_ascii c <? 128)%N.

(** ** plugin/pkg/auth/authenticator/request/keystone *)

Module Authenticator.

(** [user.DefaultInfo], by the one field set here; a [user.Info] is a
    pointer to one, or nil. *)
Record DefaultInfo : Type := { Name : string }.
Definition Info : Type := option DefaultInfo.

(** [http.Header], and [Header.Get] for a key in canonical form: the
    first value of the key, the empty string without one. *)
Abbreviation Header := (gmap string (list string)).

Definition Get (h : Header) (key : string) : string :=
  match h !! key with
  | Some (v :: _) => v
  | _ => ""
  end.

Record Request : Type := { Request_Header : Header }.

(** [gophercloud.AuthOptions], by the fields set here. *)
Module gophercloud.
Record AuthOptions : Type := {
  IdentityEndpoint : string;
  Username : string;
  Password : string
}.
End gophercloud.

Section Keystone.
Context {W : Type}.

(** [authenticator.Password]. *)
Record Password : Type := {
  AuthenticatePassword : string → string → State W (Info * bool * option error)
}.

(** [openstack.AuthenticatedClient] of gophercloud, a log-in at the
    identity provider: the client it returns is dropped by the caller,
    the error is kept. *)
Variable AuthenticatedClient : gophercloud.AuthOptions → State W (option error).

Record OpenstackClient : Type := { authURL : string }.

Definition OpenstackClient_AuthenticatePassword (osClient : OpenstackClient)
    (username password : string) : State W (Info * bool * option error) :=
  let opts := {| gophercloud.IdentityEndpoint := authURL osClient;
                 gophercloud.Username := username;
                 gophercloud.Password := password |} in
  err ← AuthenticatedClient opts;
  match err with
  | Some _ => mret (None, false, Some (errorString "Failed to authenticate"))
  | None => mret (Some {| Name := username |}, true, None)
  end.

Definition OpenstackClient_Password (osClient : OpenstackClient) : Password :=
  {| AuthenticatePassword := OpenstackClient_AuthenticatePassword osClient |}.

Record KeystoneAuthenticator : Type := { osClient : Password }.

Definition NewKeystoneAuthenticator (authURL : string)
    : option KeystoneAuthenticator * option error :=
  if String.eqb authURL "" then (None, Some (errorString "Auth URL is empty"))
  else (Some {| osClient := OpenstackClient_Password {| authURL := authURL |} |},
        None).

Definition AuthenticateRequest (a : KeystoneAuthenticator) (req : Request)
    : State W (Info * bool * option error) :=
  let auth := strings.TrimSpace (Get (Request_Header req) "Authorization") in
  if String.eqb auth "" then
    mret (None, false,
          Some (errorString "Authorization header isempty, failing request"))
  else
  let parts := strings.Split auth " " in
  match parts with
  | parts0 :: parts1 :: _ =>
      if negb (String.eqb (strings.ToLower parts0) "basic") then
        mret (None, false, Some (errorString "invalid header"))
      else
      let '(payload, err) := base64.DecodeString parts1 in
      match err with
      | Some e => mret (None, false, Some e)
      | None =>
          let pair := strings.SplitN payload ":" 2 in
          match pair with
          | [username; password] =>
              AuthenticatePassword (osClient a) username password
          | _ => mret (None, false,
                       Some (errorString "malformed basic auth header"))
          end
      end
  | _ => mret (None, false, Some (errorString "invalid header"))
  end.

End Keystone.

(** The decoding of the header in [AuthenticateRequest], up to the call
    of the collaborator, on its own: the credentials or the error. *)
Definition basicAuth (header : string) : error + string * string :=
  let auth := strings.TrimSpace header in
  if String.eqb auth "" then
    inl (errorString "Authorization header isempty, failing request")
  else
  match strings.Split auth " " with
  | parts0 :: parts1 :: _ =>
      if negb (String.eqb (strings.ToLower parts0) "basic") then
        inl (errorString "invalid header")
      else
      match base64.DecodeString parts1 with
      | (_, Some e) => inl e
      | (payload, None) =>
          match strings.SplitN payload ":" 2 with
          | [username; password] => inr (username, password)
          | _ => inl (errorString "malformed basic auth header")
          end
      end
  | _ => inl (errorString "invalid header")
  end.

(** A request with one [Authorization] header. *)
Definition request_with (header : string) : Request :=
  {| Request_Header := {[ "Authorization" := [header] ]} |}.

(** [testOpenstackClient] of keystone_test.go. *)
Definition userPasswordMap : gmap string string :=
  list_to_map
    [("user1", "password1"); ("user2", "password2"); ("user3", "password3");
     ("user4", "password4"); ("user5", "password5"); ("user6", "password6");
     ("user7", "password7"); ("user8", "password8"); ("user9", "password8")].

Definition testOpenstackClient {W : Type} : Password (W := W) :=
  {| AuthenticatePassword := λ username password,
       if String.eqb (default "" (userPasswordMap !! username)) password
       then mret (Some {| Name := username |}, true, None)
       else mret (None, false, None) |}.

(** An identity provider that knows the accounts [accounts] and turns
    every other log-in away with an error, as seen through
    [openstack.AuthenticatedClient]. *)
Definition provider (accounts : gmap string string)
    : gophercloud.AuthOptions → State unit (option error) :=
  λ opts,
    if bool_decide (accounts !! gophercloud.Username opts
                    = Some (gophercloud.Password opts))
    then mret None
    else mret (Some (errorString "Expected HTTP response code [200 203] but got 401 instead")).

End Authenticator.

(** ** pkg/auth/authorizer/keystone *)

Module Keystone.

(** [users.User] and [tenants.Tenant] of gophercloud, by the fields read
    here. *)
Module users.
Record User : Type := { Username : string; ID : string; Enabled : bool }.
End users.

Module tenants.
Record Tenant : Type := { Name : string; ID : string; Enabled : bool }.
End tenants.

(** [m[k]] on a [map[string]string]: the empty string for a key that is
    not there. *)
Definition index (m : gmap string string) (k : string) : string :=
  default "" (m !! k).

Definition whiteList : gmap string bool :=
  list_to_map
    [("kubelet", true); ("kube_proxy", true); ("system:scheduler", true);
     ("system:controller_manager", true); ("system:logging", true);
     ("system:monitoring", true)].

Definition isWhiteListedUser (username : string) : bool :=
  default false (whiteList !! username).

Section Authorizer.
Context {W : Type}.

(** [Interface] of types.go. *)
Record Interface : Type := {
  roleCheck : string → string → State W (bool * option error);
  getUsers : State W (list users.User * option error);
  getTenants : State W (list tenants.Tenant * option error)
}.

Record keystoneAuthorizer : Type := {
  osClient : Interface;
  userMap : gmap string string;
  tenantMap : gmap string string
}.

Definition Authorize (ka : keystoneAuthorizer) (a : Attributes)
    : State W (option error) :=
  if strings.HasPrefix (GetUserName a) "system:serviceaccount:" then mret None
  else if isWhiteListedUser (GetUserName a) then mret None
  else
    '(hasRole, err) ← roleCheck (osClient ka)
                        (index (userMap ka) (GetUserName a))
                        (index (tenantMap ka) (GetNamespace a));
    match err with
    | Some _ => mret (Some (errorString "Keystone authorization failed"))
    | None =>
        if hasRole : bool then mret None
        else mret (Some (errorString
                           "User not authorized through keystone for namespace"))
    end.

(** The receiver is a pointer: the authorizer after the call is returned
    next to the error. *)
Definition syncTenantMap (ka : keystoneAuthorizer)
    : State W (option error * keystoneAuthorizer) :=
  '(tenantList, err) ← getTenants (osClient ka);
  match err with
  | Some e => mret (Some e, ka)
  | None =>
      let tenantMap :=
        foldl (λ (m : gmap string string) (tenant : tenants.Tenant),
                 if tenants.Enabled tenant
                 then <[tenants.Name tenant := tenants.ID tenant]> m else m)
              ∅ tenantList in
      mret (None, {| osClient := osClient ka;
                     userMap := userMap ka;
                     tenantMap := tenantMap |})
  end.

Definition syncUserMap (ka : keystoneAuthorizer)
    : State W (option error * keystoneAuthorizer) :=
  '(userList, err) ← getUsers (osClient ka);
  match err with
  | Some e => mret (Some e, ka)
  | None =>
      let userMap :=
        foldl (λ (m : gmap string string) (user : users.User),
                 if users.Enabled user
                 then <[users.Username user := users.ID user]> m else m)
              ∅ userList in
      mret (None, {| osClient := osClient ka;
                     userMap := userMap;
                     tenantMap := tenantMap ka |})
  end.

(** *** The client of the identity provider *)

(** A [pagination.Pager] of gophercloud as what its pages turn out to
    be when fetched one after the other: a page, or the error of the
    fetch. *)
Variable Page : Type.
Definition Pager : Type := list (error + Page).

(** [Pager.EachPage(handler)]: the handler sees the pages in order, and
    stops the walk by an error or by answering false; a failed fetch
    ends it with that error.  The handler is a closure: [S] holds the
    variables it assigns. *)
Fixpoint EachPage {S : Type} (pager : Pager)
    (handler : Page → State S (bool * option error)) : State S (option error) :=
  match pager with
  | [] => mret None
  | inl e :: _ => mret (Some e)
  | inr page :: rest =>
      '(ok, err) ← handler page;
      match err with
      | Some e => mret (Some e)
      | None => if ok : bool then EachPage rest handler else mret None
      end
  end.

(** The calls into gophercloud: the three listings, and what is read off
    a page. *)
Variable ListRoles : string → string → State W Pager.
Variable ListUsers : State W Pager.
Variable ListTenants : State W Pager.
Variable Role : Type.
Variable ExtractRoles : Page → list Role * option error.
Variable ExtractUsers : Page → list users.User * option error.
Variable ExtractTenants : Page → list tenants.Tenant * option error.

Definition OpenstackClient_roleCheck (userID tenantID : string)
    : State W (bool * option error) :=
  if String.eqb userID "" then
    mret (false, Some (errorString "UserID null during authorization"))
  else if String.eqb tenantID "" then
    mret (false, Some (errorString "UserID null during authorization"))
  else
    pager ← ListRoles tenantID userID;
    let '(err, hasRole) :=
      EachPage pager
        (λ page (hasRole : bool),
           let '(roleList, err) := ExtractRoles page in
           match err with
           | Some e => ((false, Some e), hasRole)
           | None =>
               ((true, None),
                if decide (0 < length roleList) then true else hasRole)
           end)
        false in
    match err with
    | Some e => mret (false, Some e)
    | None => mret (hasRole, None)
    end.

Definition OpenstackClient_getTenants
    : State W (list tenants.Tenant * option error) :=
  pager ← ListTenants;
  let '(err, tenantList) :=
    EachPage pager
      (λ page (_ : list tenants.Tenant),
         let '(tenantList, err) := ExtractTenants page in
         match err with
         | Some e => ((false, Some e), tenantList)
         | None => ((true, None), tenantList)
         end)
      [] in
  match err with
  | Some e => mret ([], Some e)
  | None => mret (tenantList, None)
  end.

Definition OpenstackClient_getUsers
    : State W (list users.User * option error) :=
  pager ← ListUsers;
  let '(err, userList) :=
    EachPage pager
      (λ page (_ : list users.User),
         let '(userList, err) := ExtractUsers page in
         match err with
         | Some e => ((false, Some e), userList)
         | None => ((true, None), userList)
         end)
      [] in
  match err with
  | Some e => mret ([], Some e)
  | None => mret (userList, None)
  end.

Definition OpenstackClient : Interface :=
  {| roleCheck := OpenstackClient_roleCheck;
     getUsers := OpenstackClient_getUsers;
     getTenants := OpenstackClient_getTenants |}.

End Authorizer.

(** *** The test client of keystone_test.go *)

Definition getTenantSampleSet : list tenants.Tenant * option error :=
  ([{| tenants.Name := "tenant1"; tenants.ID := "123"; tenants.Enabled := true |};
    {| tenants.Name := "tenant2"; tenants.ID := "234"; tenants.Enabled := true |};
    {| tenants.Name := "tenant3"; tenants.ID := "345"; tenants.Enabled := true |}],
   None).

Definition getUserSampleSet : list users.User * option error :=
  ([{| users.Username := "user1"; users.ID := "12"; users.Enabled := true |};
    {| users.Username := "user2"; users.ID := "23"; users.Enabled := true |};
    {| users.Username := "user3"; users.ID := "34"; users.Enabled := true |};
    {| users.Username := "user4"; users.ID := "56"; users.Enabled := true |}],
   None).

Definition sampleRoleSet : gmap string (list string) :=
  list_to_map
    [("123:12", ["admin"]); ("234:12", ["admin"; "user"]); ("456:23", ["admin"])].

Definition testOpenstackClient {W : Type} : Interface (W := W) :=
  {| getTenants := mret getTenantSampleSet;
     getUsers := mret getUserSampleSet;
     roleCheck := λ userID tenantID,
       let roleMap := sampleRoleSet in
       let key := tenantID +:+ ":" +:+ userID in
       if decide (0 < length (default [] (roleMap !! key)))
       then mret (true, None)
       else mret (false, None) |}.

(** A role checker that grants user id "12" in the tenants of ids "123"
    and "234" and nobody else, and the cache that maps user1 and the
    tenants tenant1 and tenant2 to these ids. *)
Definition grants_12_in_123_234 {W : Type} : Interface (W := W) :=
  {| getTenants := mret ([], None);
     getUsers := mret ([], None);
     roleCheck := λ userID tenantID,
       mret (bool_decide (userID = "12" ∧ (tenantID = "123" ∨ tenantID = "234")),
             None) |}.

Definition cache_user1 {W : Type} (client : Interface (W := W))
    : keystoneAuthorizer :=
  {| osClient := client;
     userMap := {[ "user1" := "12" ]};
     tenantMap := <[ "tenant1" := "123" ]> {[ "tenant2" := "234" ]} |}.

(** Role-check instrumentation: a client whose [roleCheck] answers
    [answer] and counts its calls in the world. *)
Definition counting (answer : string → string → bool * option error)
    : Interface (W := nat) :=
  {| getTenants := mret ([], None);
     getUsers := mret ([], None);
     roleCheck := λ userID tenantID calls, (answer userID tenantID, S calls) |}.

End Keystone.

(** ** Members of a union without state *)

(** A member whose answer depends on the attributes only and that
    leaves the world alone. *)
Definition stateless {W : Type} (verdict : Attributes → option error)
    : Union.Authorizer (W := W) :=
  λ a, mret (verdict a).

(** ** What a walk over the pages of a pager meets *)



(** ** Collaborators to try the results on *)

Module Samples.

(** A provider with a user listed twice, enabled, and a user and a
    tenant that are disabled. *)
Definition listing : Keystone.Interface (W := unit) :=
  {| Keystone.roleCheck := λ _ _, mret (false, None);
     Keystone.getUsers :=
       mret ([{| Keystone.users.Username := "user1"; Keystone.users.ID := "12";
                 Keystone.users.Enabled := true |};
              {| Keystone.users.Username := "user2"; Keystone.users.ID := "23";
                 Keystone.users.Enabled := false |};
              {| Keystone.users.Username := "user1"; Keystone.users.ID := "13";
                 Keystone.users.Enabled := true |}],
             None);
     Keystone.getTenants :=
       mret ([{| Keystone.tenants.Name := "tenant1"; Keystone.tenants.ID := "123";
                 Keystone.tenants.Enabled := true |};
              {| Keystone.tenants.Name := "tenant2"; Keystone.tenants.ID := "234";
                 Keystone.tenants.Enabled := false |}],
             None) |}.

(** A provider whose pages are lists of names; the page "broken"
    cannot be read.  Every call of the provider is counted. *)
Definition read {A : Type} (item : string → A) (page : list string)
    : list A * option error :=
  if bool_decide (page = ["broken"])
  then ([], Some (errorString "unexpected page"))
  else (item <$> page, None).

Definition as_user (name : string) : Keystone.users.User :=
  {| Keystone.users.Username := name; Keystone.users.ID := "id-" +:+ name;
     Keystone.users.Enabled := true |}.

Definition as_tenant (name : string) : Keystone.tenants.Tenant :=
  {| Keystone.tenants.Name := name; Keystone.tenants.ID := "id-" +:+ name;
     Keystone.tenants.Enabled := true |}.

Definition paged (roles users tenants : Keystone.Pager (list string))
    : Keystone.Interface (W := nat) :=
  Keystone.OpenstackClient (list string)
    (λ _ _ calls, (roles, S calls)) (λ calls, (users, S calls))
    (λ calls, (tenants, S calls)) string
    (read id) (read as_user) (read as_tenant).

(** An authenticator whose collaborator accepts everybody and counts
    its calls. *)
Definition counting_authenticator
    : Authenticator.KeystoneAuthenticator (W := nat) :=
  {| Authenticator.osClient :=
       {| Authenticator.AuthenticatePassword := λ username password calls,
            ((Some {| Authenticator.Name := username |}, true, None), S calls) |} |}.

End Samples.

(** ** The tests of the repository *)

(** TestKeystoneAuth: for each header, whether an error comes back and
    the value of ok. *)
Definition keystone_auth_outcome (header : option string) : bool * bool :=
  let req := match header with
             | Some h => Authenticator.request_with h
             | None => {| Authenticator.Request_Header := ∅ |}
             end in
  let '(_, ok, err, _) :=
    Authenticator.AuthenticateRequest
      {| Authenticator.osClient := Authenticator.testOpenstackClient |} req tt in
  (bool_decide (err ≠ None), ok).

(** TestAuthorize: both maps synced from the test client, then whether
    [Authorize] returns an error. *)
Definition authorize_outcome (user namespace : string) : bool :=
  let auth := {| Keystone.osClient := Keystone.testOpenstackClient;
                 Keystone.userMap := ∅; Keystone.tenantMap := ∅ |} in
  let '(_, auth, _) := Keystone.syncTenantMap auth tt in
  let '(_, auth, _) := Keystone.syncUserMap auth tt in
  let '(err, _) :=
    Keystone.Authorize auth {| GetUserName := user; GetNamespace := namespace |} tt in
  bool_decide (err ≠ None).

(** * Results *)

(** ** Strings *)

#[local] Arguments String.append !_ _ / : simpl nomatch.

Lemma append_assoc (s1 s2 s3 : string) :
  (s1 +:+ s2) +:+ s3 = s1 +:+ (s2 +:+ s3).
Proof. induction s1 as [|c s1 IH]; simpl; [done|by rewrite IH]. Qed.

Lemma append_nil_r (s : string) : s +:+ "" = s.
Proof. induction s as [|c s IH]; simpl; [done|by rewrite IH]. Qed.

(** ** The union authorizer *)

Section UnionResults.
Import Union.
Context {W : Type}.
Implicit Types (handlers : list (Authorizer (W := W))) (a : Attributes) (w : W).

(** Running the loop over members that all deny moves their errors to
    [errlist] and their indices to the log. *)
Lemma Authorize_range_denials newAggregate pre :
  ∀ rest i a errlist w log errs w1,
    denials pre a w = Some (errs, w1) →
    Authorize_range newAggregate (instrument_from i (pre ++ rest)) a errlist
      (w, log)
    = Authorize_range newAggregate (instrument_from (i + length pre) rest) a
        (errlist ++ errs) (w1, log ++ seq i (length pre)).
Proof.
  induction pre as [|h pre IH]; intros rest i a errlist w log errs w1 Hd.
  - simpl in Hd. injection Hd as <- <-. simpl.
    by rewrite !app_nil_r, Nat.add_0_r.
  - simpl in Hd. destruct (h a w) as [[e|] w'] eqn:Hh; [|done].
    destruct (denials pre a w') as [[errs' w2]|] eqn:Hd'; [|done].
    simpl in Hd. injection Hd as <- <-.
    cbn [app instrument_from Authorize_range length seq].
    unfold mbind, State_bind, counted at 1. rewrite Hh.
    rewrite (IH rest (S i) a (errlist ++ [e]) w' (log ++ [i]) errs' w2 Hd').
    by rewrite <-!(assoc_L (++)), Nat.add_succ_r.
Qed.

Lemma denials_length handlers :
  ∀ a w errs w1,
    denials handlers a w = Some (errs, w1) → length errs = length handlers.
Proof.
  induction handlers as [|h rest IH]; intros a w errs w1 Hd; simpl in Hd.
  - by injection Hd as <- <-.
  - destruct (h a w) as [[e|] w'] eqn:Hh; [|done].
    destruct (denials rest a w') as [[errs' w2]|] eqn:Hd'; [|done].
    simpl in Hd. injection Hd as <- <-. simpl. f_equal. by eapply IH.
Qed.

(** Text in front of a string keeps what occurs in it. *)
Lemma occurs_in_order_prepend ms p s :
  occurs_in_order ms s → occurs_in_order ms (p +:+ s).
Proof.
  destruct ms as [|m ms]; [done|].
  intros (pre & post & -> & Hpost). exists (p +:+ pre), post.
  by rewrite append_assoc.
Qed.

(** The joined messages hold each message, in order, whatever follows. *)
Lemma occurs_in_order_join sep ms :
  ∀ post, occurs_in_order ms (join sep ms +:+ post).
Proof.
  induction ms as [|m ms IH]; intros post; [done|].
  exists "", (match ms with [] => post | _ => sep +:+ join sep ms +:+ post end).
  destruct ms as [|m' ms]; [done|]. split.
  - cbn [join]. by rewrite !append_assoc.
  - apply occurs_in_order_prepend, IH.
Qed.

(** Without members the answer is the one of [errors.NewAggregate] on
    an empty list. *)
Lemma Authorize_no_member newAggregate a w :
  Authorize newAggregate (New []) a w = (newAggregate [], w).
Proof. done. Qed.


(** C2.  When member [k] grants and the members before it deny, the
    union authorizer grants, and the call log has gained the members
    [0..k], once each and in order: none after [k] is invoked.  This
    holds whatever [errors.NewAggregate] does. *)
Theorem union_first_grant_short_circuits newAggregate handlers k h a w
    errs w1 w2 log :
  handlers ≠ [] →
  handlers !! k = Some h →
  denials (take k handlers) a w = Some (errs, w1) →
  h a w1 = (None, w2) →
  Authorize newAggregate (instrument handlers) a (w, log)
  = (None, (w2, log ++ seq 0 (S k)))
  ∧ ∀ j, k < j → j ∉ seq 0 (S k).
Proof.
  intros _ Hk Hd Hh. split.
  - unfold Authorize, instrument.
    rewrite <-(take_drop_middle handlers k h Hk).
    rewrite (Authorize_range_denials _ _ _ 0 a [] w log errs w1 Hd).
    cbn [instrument_from Authorize_range].
    unfold mbind, State_bind, counted at 1. rewrite Hh.
    pose proof (lookup_lt_Some _ _ _ Hk) as Hlt.
    unfold Authorizer, State in *.
    rewrite length_take_le by lia.
    by rewrite seq_S, (assoc_L (++)).
  - intros j Hj [_ ?]%elem_of_seq. lia.
Qed.

(** C3.  When every member of a non-empty list denies, the union
    authorizer returns one error, the aggregate of the members' errors
    in list order, as many as there are members; every member has been
    invoked; and the message of the aggregate holds the members'
    messages one after the other. *)
Theorem union_all_deny_aggregates sep handlers a w errs w1 log :
  handlers ≠ [] →
  denials handlers a w = Some (errs, w1) →
  Authorize NewAggregate (instrument handlers) a (w, log)
  = (Some (aggregate errs), (w1, log ++ seq 0 (length handlers)))
  ∧ length errs = length handlers
  ∧ occurs_in_order (map (Error sep) errs) (Error sep (aggregate errs)).
Proof.
  intros _ Hd. split; [|split].
  - unfold Authorize, instrument.
    rewrite <-(app_nil_r handlers) at 1.
    rewrite (Authorize_range_denials _ _ _ 0 a [] w log errs w1 Hd).
    done.
  - by apply denials_length in Hd.
  - cbn [Error]. rewrite <-(append_nil_r (join _ _)).
    apply occurs_in_order_join.
Qed.

End UnionResults.

Lemma union_first_grant_short_circuits_witness :
  Union.Authorize NewAggregate
    (Union.instrument
       [Union.always (Some (errorString "no")); Union.always None;
        Union.always (Some (errorString "never asked"))])
    {| GetUserName := "alice"; GetNamespace := "dev" |} (tt, [])
  = (None, (tt, [0; 1]))
  ∧ ∀ j, 1 < j → j ∉ seq 0 2.
Proof.
  apply (union_first_grant_short_circuits NewAggregate
           [Union.always (Some (errorString "no")); Union.always None;
            Union.always (Some (errorString "never asked"))]
           1 (Union.always None)
           {| GetUserName := "alice"; GetNamespace := "dev" |}
           tt [errorString "no"] tt tt []);
    [discriminate | reflexivity | reflexivity | reflexivity].
Defined.

Lemma union_all_deny_aggregates_witness :
  Union.Authorize NewAggregate
    (Union.instrument
       [Union.always (Some (errorString "no")); Union.always (Some (errorString "no"))])
    {| GetUserName := "alice"; GetNamespace := "dev" |} (tt, [])
  = (Some (aggregate [errorString "no"; errorString "no"]), (tt, [0; 1]))
  ∧ length [errorString "no"; errorString "no"] = 2
  ∧ occurs_in_order ["no"; "no"] "no, no".
Proof.
  apply (union_all_deny_aggregates ", "
           [Union.always (Some (errorString "no"));
            Union.always (Some (errorString "no"))]
           {| GetUserName := "alice"; GetNamespace := "dev" |}
           tt [errorString "no"; errorString "no"] tt []);
    [discriminate | reflexivity].
Defined.

(** ** The Keystone authorizer *)

Section KeystoneResults.
Import Keystone.
Context {W : Type}.
Implicit Types (ka : keystoneAuthorizer (W := W)) (a : Attributes) (w : W).

(** X21.  The names on the white list: [isWhiteListedUser] is true for
    these six names, spelled exactly so, and for no other. *)
Lemma isWhiteListedUser_names username :
  isWhiteListedUser username = true
  ↔ username ∈ ["kubelet"; "kube_proxy"; "system:scheduler";
                "system:controller_manager"; "system:logging";
                "system:monitoring"].
Proof.
  unfold isWhiteListedUser, whiteList. cbn [list_to_map foldr uncurry fst snd].
  repeat (rewrite lookup_insert; case_decide;
          [subst; split; [intros _; set_solver | done] |]).
  rewrite lookup_empty. split; [done|].
  rewrite !elem_of_cons, elem_of_nil. intuition congruence.
Qed.

(** C4.  A subject whose name starts with "system:serviceaccount:", or
    is on the white list, is granted whatever the cache holds and
    whatever the client of the identity provider would answer; the
    world comes back as it was given, so [roleCheck] has not been
    invoked: a client that counts its role checks counts none. *)
Theorem keystone_privileged_subject_granted ka a w :
  strings.HasPrefix (GetUserName a) "system:serviceaccount:" = true
  ∨ isWhiteListedUser (GetUserName a) = true →
  Authorize ka a w = (None, w)
  ∧ ∀ answer users tenants calls,
      Authorize {| osClient := counting answer;
                   userMap := users; tenantMap := tenants |} a calls
      = (None, calls).
Proof.
  intros Hp. unfold Authorize.
  destruct (strings.HasPrefix _ _); [done|].
  destruct Hp as [?| ->]; done.
Qed.

(** C6.  When the listing of the users fails, [syncUserMap] returns the
    error of the listing and the authorizer is as it was, so a look-up
    in [userMap] finds what it found before; and the same for
    [syncTenantMap] and [tenantMap]. *)
Theorem keystone_failed_sync_keeps_cache ka w :
  (∀ userList e w',
     getUsers (osClient ka) w = ((userList, Some e), w') →
     syncUserMap ka w = ((Some e, ka), w')
     ∧ ∀ name, userMap (snd (fst (syncUserMap ka w))) !! name
               = userMap ka !! name)
  ∧ (∀ tenantList e w',
       getTenants (osClient ka) w = ((tenantList, Some e), w') →
       syncTenantMap ka w = ((Some e, ka), w')
       ∧ ∀ name, tenantMap (snd (fst (syncTenantMap ka w))) !! name
                 = tenantMap ka !! name).
Proof.
  split; intros l e w' Hget.
  - unfold syncUserMap, mbind, State_bind. by rewrite Hget.
  - unfold syncTenantMap, mbind, State_bind. by rewrite Hget.
Qed.

(** [Authorize] past the two early returns. *)
Lemma Authorize_roleCheck ka a w hasRole err w' :
  strings.HasPrefix (GetUserName a) "system:serviceaccount:" = false →
  isWhiteListedUser (GetUserName a) = false →
  roleCheck (osClient ka) (index (userMap ka) (GetUserName a))
    (index (tenantMap ka) (GetNamespace a)) w = ((hasRole, err), w') →
  Authorize ka a w
  = (match err with
     | Some _ => Some (errorString "Keystone authorization failed")
     | None =>
         if hasRole then None
         else Some (errorString
                      "User not authorized through keystone for namespace")
     end, w').
Proof.
  intros Hp Hl Hrole. unfold Authorize, mbind, State_bind.
  rewrite Hp, Hl, Hrole. by destruct err, hasRole.
Qed.

(** C7.  For a subject that is neither a service account nor on the
    white list the answer of [roleCheck] decides: an error gives the
    fixed error "Keystone authorization failed", whatever the error of
    the client was; a role grants; no role gives "User not authorized
    through keystone for namespace". *)
Theorem keystone_role_check_decides ka a w hasRole err w' :
  strings.HasPrefix (GetUserName a) "system:serviceaccount:" = false →
  isWhiteListedUser (GetUserName a) = false →
  roleCheck (osClient ka) (index (userMap ka) (GetUserName a))
    (index (tenantMap ka) (GetNamespace a)) w = ((hasRole, err), w') →
  (∀ e, err = Some e →
        Authorize ka a w
        = (Some (errorString "Keystone authorization failed"), w'))
  ∧ (err = None → hasRole = true → Authorize ka a w = (None, w'))
  ∧ (err = None → hasRole = false →
     Authorize ka a w
     = (Some (errorString "User not authorized through keystone for namespace"),
        w')).
Proof.
  intros Hp Hl Hrole. rewrite (Authorize_roleCheck ka a w hasRole err w') by done.
  repeat split; [by intros e -> | by intros -> -> ..].
Qed.

(** C9.  With user1 cached as "12", tenant1 as "123" and tenant2 as
    "234", and a role checker that grants exactly ("12", "123") and
    ("12", "234"): user1 is granted in namespace tenant1 and denied in
    namespace tenant3, which the cache does not hold. *)
Theorem keystone_end_to_end w :
  Authorize (cache_user1 grants_12_in_123_234)
    {| GetUserName := "user1"; GetNamespace := "tenant1" |} w = (None, w)
  ∧ tenantMap (cache_user1 (W := W) grants_12_in_123_234) !! "tenant3" = None
  ∧ Authorize (cache_user1 grants_12_in_123_234)
      {| GetUserName := "user1"; GetNamespace := "tenant3" |} w
    = (Some (errorString "User not authorized through keystone for namespace"),
       w).
Proof. by vm_compute. Qed.

Section Provider.
Context {Page Role : Type}.
Variable ListRoles : string → string → State W (Pager Page).
Variables ListUsers ListTenants : State W (Pager Page).
Variable ExtractRoles : Page → list Role * option error.
Variable ExtractUsers : Page → list users.User * option error.
Variable ExtractTenants : Page → list tenants.Tenant * option error.

Let client : Interface :=
  OpenstackClient Page ListRoles ListUsers ListTenants Role
    ExtractRoles ExtractUsers ExtractTenants.

(** C10.  [roleCheck] of the client of the identity provider answers an
    empty user id or tenant id with false and the error "UserID null
    during authorization", without a call to the provider; so with that
    client a subject or a namespace that the cache does not hold gets
    "Keystone authorization failed" from [Authorize]. *)
Theorem keystone_empty_id_fails_role_check :
  (∀ userID tenantID w,
     userID = "" ∨ tenantID = "" →
     roleCheck client userID tenantID w
     = ((false, Some (errorString "UserID null during authorization")), w))
  ∧ (∀ users tenants a w,
       strings.HasPrefix (GetUserName a) "system:serviceaccount:" = false →
       isWhiteListedUser (GetUserName a) = false →
       users !! GetUserName a = None ∨ tenants !! GetNamespace a = None →
       Authorize {| osClient := client; userMap := users;
                    tenantMap := tenants |} a w
       = (Some (errorString "Keystone authorization failed"), w)).
Proof.
  assert (Hguard : ∀ userID tenantID w,
     userID = "" ∨ tenantID = "" →
     roleCheck client userID tenantID w
     = ((false, Some (errorString "UserID null during authorization")), w)).
  { intros userID tenantID w Hid. cbn. unfold OpenstackClient_roleCheck.
    destruct (String.eqb_spec userID "") as [->|Hu]; [done|].
    destruct Hid as [?| ->]; done. }
  split; [done|].
  intros users tenants a w Hp Hl Habsent.
  eapply Authorize_roleCheck with (err := Some _); [done..|].
  apply Hguard. cbn. unfold index. destruct Habsent as [-> | ->]; auto.
Qed.

End Provider.
End KeystoneResults.
(** ** Base64 *)

Section Base64Results.
Import base64.
Local Open Scope N_scope.

(** Bits that do not overlap add up. *)
Lemma lor_disjoint_add (a b n : N) :
  a mod 2 ^ n = 0 → b < 2 ^ n → N.lor a b = a + b.
Proof.
  intros Ha Hb.
  assert (Hland : N.land a b = 0).
  { apply N.bits_inj_0. intros m. rewrite N.land_spec.
    destruct (N.lt_ge_cases m n) as [Hm|Hm].
    - by rewrite <-(N.mod_pow2_bits_low a n m Hm), Ha, N.bits_0.
    - destruct (N.eq_dec b 0) as [->|Hb0]; [by rewrite N.bits_0, andb_false_r|].
      rewrite (N.bits_above_log2 b m), andb_false_r; [done|].
      apply N.log2_lt_pow2; [lia|].
      eapply N.lt_le_trans; [exact Hb|]. by apply N.pow_le_mono_r. }
  by rewrite <-N.lxor_lor, N.add_nocarry_lxor.
Qed.

Lemma land_63 (x : N) : N.land x 0x3F = x mod 64.
Proof. change 0x3F with (N.ones 6). by rewrite N.land_ones. Qed.

Lemma land_255 (x : N) : N.land x 0xFF = x mod 256.
Proof. change 0xFF with (N.ones 8). by rewrite N.land_ones. Qed.

Lemma land_63_lt (x : N) : N.land x 0x3F < 64.
Proof. rewrite land_63. by apply N.mod_lt. Qed.

#[local] Ltac divmod := 
  Z.to_euclidean_division_equations; lia.

(** The 24 bits of three bytes, and of four 6-bit values. *)
Lemma bytes_arith (b0 b1 b2 : N) :
  b0 < 256 → b1 < 256 → b2 < 256 →
  N.lor (N.lor (N.shiftl b0 16) (N.shiftl b1 8)) b2
  = b0 * 65536 + b1 * 256 + b2.
Proof.
  intros H0 H1 H2. rewrite !N.shiftl_mul_pow2.
  change (2 ^ 16) with 65536. change (2 ^ 8) with 256.
  rewrite (lor_disjoint_add (b0 * 65536) (b1 * 256) 16);
    [|change (2 ^ 16) with 65536; zify; divmod
     |change (2 ^ 16) with 65536; lia].
  rewrite (lor_disjoint_add _ b2 8);
    [done|change (2 ^ 8) with 256; zify; divmod|change (2 ^ 8) with 256; lia].
Qed.

Lemma quantum_arith (d0 d1 d2 d3 : N) :
  d0 < 64 → d1 < 64 → d2 < 64 → d3 < 64 →
  quantum d0 d1 d2 d3 = d0 * 262144 + d1 * 4096 + d2 * 64 + d3.
Proof.
  intros H0 H1 H2 H3. unfold quantum. rewrite !N.shiftl_mul_pow2.
  change (2 ^ 18) with 262144. change (2 ^ 12) with 4096.
  change (2 ^ 6) with 64.
  rewrite (lor_disjoint_add (d0 * 262144) (d1 * 4096) 18);
    [|change (2 ^ 18) with 262144; zify; divmod
     |change (2 ^ 18) with 262144; lia].
  rewrite (lor_disjoint_add _ (d2 * 64) 12);
    [|change (2 ^ 12) with 4096; zify; divmod
     |change (2 ^ 12) with 4096; lia].
  rewrite (lor_disjoint_add _ d3 6);
    [done|change (2 ^ 6) with 64; zify; divmod|change (2 ^ 6) with 64; lia].
Qed.

(** The alphabet is read back as it is written. *)
Lemma decodeMap_encode (i : N) : i < 64 → decodeMap (encode i) = Some i.
Proof.
  intros Hi. rewrite <-(N2Nat.id i) at 2.
  assert (Hn : (N.to_nat i < 64)%nat) by lia.
  unfold encode. revert Hn. generalize (N.to_nat i) as n. intros n Hn.
  do 64 (destruct n as [|n]; [reflexivity|]). lia.
Qed.

Lemma decodeMap_padChar : decodeMap padChar = None.
Proof. reflexivity. Qed.

Lemma decodeMap_sextet (val shift : N) :
  decodeMap (sextet val shift) = Some (N.shiftr val shift mod 64).
Proof.
  unfold sextet. rewrite decodeMap_encode by apply land_63_lt.
  by rewrite land_63.
Qed.

(** Strings three bytes at a time. *)
Lemma string_triples_ind (P : string → Prop) :
  P "" →
  (∀ b0, P (String b0 "")) →
  (∀ b0 b1, P (String b0 (String b1 ""))) →
  (∀ b0 b1 b2 rest, P rest → P (String b0 (String b1 (String b2 rest)))) →
  ∀ s, P s.
Proof.
  intros H0 H1 H2 H3. fix IH 1.
  intros [|b0 [|b1 [|b2 rest]]]; [done..|]. apply H3, IH.
Qed.

(** One byte of a quantum read back. *)
Lemma byte_of (b : ascii) (x : N) : x mod 256 = N_of_ascii b → byte x = b.
Proof.
  intros Hx. unfold byte. by rewrite land_255, Hx, ascii_N_embedding.
Qed.

(** Round trip: what [EncodeToString] writes, [decode] reads back. *)
Lemma decode_EncodeToString (src : string) :
  decode (EncodeToString src) = Some src.
Proof.
  induction src as [|b0|b0 b1|b0 b1 b2 rest IH] using string_triples_ind.
  - done.
  - pose proof (N_ascii_bounded b0) as H0.
    cbn [EncodeToString decode].
    rewrite !decodeMap_sextet, decodeMap_padChar.
    cbn [andb]. rewrite Ascii.eqb_refl. cbn [andb String.eqb].
    rewrite quantum_arith by (try apply N.mod_lt; lia).
    rewrite !N.shiftr_div_pow2, N.shiftl_mul_pow2.
    change (2 ^ 18) with 262144. change (2 ^ 16) with 65536.
    change (2 ^ 12) with 4096.
    do 2 f_equal. apply byte_of. zify; divmod.
  - pose proof (N_ascii_bounded b0) as H0.
    pose proof (N_ascii_bounded b1) as H1.
    cbn [EncodeToString decode].
    rewrite !decodeMap_sextet, decodeMap_padChar.
    rewrite Ascii.eqb_refl. cbn [andb String.eqb].
    rewrite quantum_arith by (try apply N.mod_lt; lia).
    rewrite <-(N.lor_0_r (N.lor _ _)), bytes_arith by lia.
    rewrite !N.shiftr_div_pow2.
    change (2 ^ 18) with 262144. change (2 ^ 16) with 65536.
    change (2 ^ 12) with 4096. change (2 ^ 8) with 256. change (2 ^ 6) with 64.
    f_equal. f_equal; [|f_equal]; apply byte_of; zify; divmod.
  - pose proof (N_ascii_bounded b0) as H0.
    pose proof (N_ascii_bounded b1) as H1.
    pose proof (N_ascii_bounded b2) as H2.
    cbn [EncodeToString decode].
    rewrite !decodeMap_sextet, IH. cbn [mbind option_bind].
    rewrite quantum_arith by (try apply N.mod_lt; lia).
    rewrite bytes_arith by lia.
    rewrite !N.shiftr_div_pow2.
    change (2 ^ 18) with 262144. change (2 ^ 16) with 65536.
    change (2 ^ 12) with 4096. change (2 ^ 8) with 256. change (2 ^ 6) with 64.
    change (2 ^ 0) with 1.
    f_equal. f_equal; [|f_equal; [|f_equal]]; apply byte_of; zify; divmod.
Qed.

End Base64Results.

(** What the encoder writes is made of the alphabet and the padding. *)
Lemma is_base64_encode (i : N) : (i < 64)%N → base64.is_base64 (base64.encode i) = true.
Proof. intros Hi. unfold base64.is_base64. by rewrite decodeMap_encode. Qed.

Lemma EncodeToString_is_base64 (src : string) :
  strings.every base64.is_base64 (base64.EncodeToString src) = true.
Proof.
  induction src as [|b0|b0 b1|b0 b1 b2 rest IH] using string_triples_ind;
    cbn [base64.EncodeToString strings.every]; unfold base64.sextet;
    rewrite ?is_base64_encode by apply land_63_lt; [done..|].
  by rewrite IH.
Qed.

Lemma EncodeToString_nonempty (src : string) :
  src ≠ "" → base64.EncodeToString src ≠ "".
Proof. by destruct src as [|b0 [|b1 [|b2 rest]]]. Qed.

(** The characters of an encoding are plain. *)
Lemma is_base64_plain (c : ascii) : base64.is_base64 c = true → plain c = true.
Proof.
  destruct c as [[] [] [] [] [] [] [] []]; vm_compute; congruence.
Qed.

(** ** The Go string functions on an encoded header *)

Section StringResults.
Import strings.

Lemma every_plain_tail p c s : every p (String c s) = true → p c = true ∧ every p s = true.
Proof. cbn [every]. by intros [??]%andb_prop. Qed.

Lemma rev_app_rev_app (s a b : string) :
  String.rev_app (String.rev_app s a) b = String.rev_app a (s +:+ b).
Proof.
  revert a. induction s as [|c s IH]; intros a; [done|].
  cbn [String.rev_app]. by rewrite IH.
Qed.

Lemma rev_involutive (s : string) : String.rev (String.rev s) = s.
Proof.
  unfold String.rev. rewrite rev_app_rev_app. cbn [String.rev_app].
  apply append_nil_r.
Qed.

(** Reversed, a non-empty string of plain characters starts with one. *)
Lemma rev_app_plain_head (s acc : string) :
  s ≠ "" → every plain s = true →
  ∃ c t, String.rev_app s acc = String c t ∧ plain c = true.
Proof.
  revert acc. induction s as [|c s IH]; intros acc Hne Hs; [done|].
  apply every_plain_tail in Hs as [Hc Hs]. cbn [String.rev_app].
  destruct s as [|c' s']; [by exists c, acc|].
  by apply IH.
Qed.

Lemma space2_plain_last c1 c2 : plain c2 = true → space2 c1 c2 = false.
Proof.
  unfold plain, space2. intros [_ Hlt%N.ltb_lt]%andb_prop.
  destruct (N.eqb_spec (N_of_ascii c2) 0x85) as [?|_]; [lia|].
  destruct (N.eqb_spec (N_of_ascii c2) 0xA0) as [?|_]; [lia|].
  by rewrite andb_false_r.
Qed.

Lemma space3_plain_last c1 c2 c3 : plain c3 = true → space3 c1 c2 c3 = false.
Proof.
  unfold plain, space3. intros [_ Hlt%N.ltb_lt]%andb_prop.
  destruct (N.eqb_spec (N_of_ascii c3) 0x80) as [?|_]; [lia|].
  destruct (N.eqb_spec (N_of_ascii c3) 0xA8) as [?|_]; [lia|].
  destruct (N.eqb_spec (N_of_ascii c3) 0xA9) as [?|_]; [lia|].
  destruct (N.eqb_spec (N_of_ascii c3) 0xAF) as [?|_]; [lia|].
  destruct (N.eqb_spec (N_of_ascii c3) 0x9F) as [?|_]; [lia|].
  destruct (N.leb_spec 0x80 (N_of_ascii c3)) as [?|_]; [lia|].
  by rewrite !andb_false_r.
Qed.

(** A string that starts with a byte no white-space rune starts with is
    left alone by [trim_head]. *)
Lemma trim_head_stops w2 w3 c s :
  space1 c = false → (∀ c2, w2 c c2 = false) → (∀ c2 c3, w3 c c2 c3 = false) →
  trim_head w2 w3 (String c s) = String c s.
Proof.
  intros H1 H2 H3. cbn [trim_head]. rewrite H1.
  destruct s as [|c2 [|c3 s]]; [done|by rewrite H2|by rewrite H2, H3].
Qed.

Lemma plain_space1 c : plain c = true → space1 c = false.
Proof.
  unfold plain. intros [[[H _]%andb_prop _]%andb_prop _]%andb_prop.
  by apply negb_true_iff.
Qed.

Lemma plain_not_newline c : plain c = true → base64.is_newline c = false.
Proof.
  unfold plain. intros [[[_ H]%andb_prop _]%andb_prop _]%andb_prop.
  by apply negb_true_iff.
Qed.

Lemma plain_not_space c : plain c = true → Ascii.eqb c " " = false.
Proof.
  unfold plain. intros [[_ H]%andb_prop _]%andb_prop.
  by apply negb_true_iff.
Qed.

(** [TrimSpace] leaves "Basic " and an encoding as they are. *)
Lemma TrimSpace_Basic (enc : string) :
  enc ≠ "" → every plain enc = true →
  TrimSpace ("Basic " +:+ enc) = "Basic " +:+ enc.
Proof.
  intros Hne Hplain. unfold TrimSpace.
  assert (Hleft : TrimLeft_space ("Basic " +:+ enc) = "Basic " +:+ enc)
    by (by apply trim_head_stops).
  rewrite Hleft. unfold TrimRight_space.
  destruct (rev_app_plain_head enc " cisaB" Hne Hplain) as (c & t & Hrev & Hc).
  assert (Hr : String.rev ("Basic " +:+ enc) = String c t) by exact Hrev.
  rewrite Hr, trim_head_stops.
  - by rewrite <-Hr, rev_involutive.
  - by apply plain_space1.
  - intros c2. by apply space2_plain_last.
  - intros c2 c3. by apply space3_plain_last.
Qed.

(** [Split] at the first separator. *)
Lemma Split_nonempty s sep : Split s sep ≠ [].
Proof.
  induction s as [|c s IH]; [done|]. cbn [Split].
  destruct (Ascii.eqb c sep); [done|]. by destruct (Split s sep).
Qed.

Lemma Split_none s sep :
  every (λ c, negb (Ascii.eqb c sep)) s = true → Split s sep = [s].
Proof.
  induction s as [|c s IH]; [done|].
  intros [Hc%negb_true_iff Hs]%every_plain_tail. cbn [Split].
  by rewrite Hc, IH.
Qed.

Lemma Split_first s1 s2 sep :
  every (λ c, negb (Ascii.eqb c sep)) s1 = true →
  Split (s1 +:+ String sep s2) sep = s1 :: Split s2 sep.
Proof.
  induction s1 as [|c s1 IH]; intros Hs1.
  - cbn [String.append Split]. by rewrite Ascii.eqb_refl.
  - apply every_plain_tail in Hs1 as [Hc%negb_true_iff Hs1].
    cbn [String.append Split]. fold String.append. by rewrite Hc, IH.
Qed.

(** [cut] and [SplitN] at the first separator. *)
Lemma cut_first s1 s2 sep :
  every (λ c, negb (Ascii.eqb c sep)) s1 = true →
  cut (s1 +:+ String sep s2) sep = Some (s1, s2).
Proof.
  induction s1 as [|c s1 IH]; intros Hs1.
  - cbn [String.append cut]. by rewrite Ascii.eqb_refl.
  - apply every_plain_tail in Hs1 as [Hc%negb_true_iff Hs1].
    cbn [String.append cut]. fold String.append. by rewrite Hc, IH.
Qed.

Lemma removeNewlines_plain s :
  every plain s = true → base64.removeNewlines s = s.
Proof.
  induction s as [|c s IH]; [done|].
  intros [Hc%plain_not_newline Hs]%every_plain_tail.
  cbn [base64.removeNewlines]. by rewrite Hc, IH.
Qed.

Lemma every_impl (p q : ascii → bool) s :
  (∀ c, p c = true → q c = true) → every p s = true → every q s = true.
Proof.
  intros Hpq. induction s as [|c s IH]; [done|].
  intros [Hc Hs]%every_plain_tail. cbn [every]. by rewrite Hpq, IH.
Qed.

End StringResults.

(** ** The Keystone authenticator *)

Section AuthenticatorResults.
Import Authenticator.

Lemma Get_request_with (header : string) :
  Get (Request_Header (request_with header)) "Authorization" = header.
Proof.
  unfold Get, request_with. cbn [Request_Header].
  by rewrite lookup_singleton_eq.
Qed.

(** [AuthenticateRequest] is the decoding of the header followed by the
    call of the collaborator. *)
Lemma AuthenticateRequest_basicAuth {W} (a : KeystoneAuthenticator (W := W)) req w :
  AuthenticateRequest a req w
  = match basicAuth (Get (Request_Header req) "Authorization") with
    | inl e => ((None, false, Some e), w)
    | inr (username, password) =>
        AuthenticatePassword (osClient a) username password w
    end.
Proof.
  unfold AuthenticateRequest, basicAuth.
  destruct (String.eqb _ ""); [done|].
  destruct (strings.Split _ _) as [|parts0 [|parts1 parts]]; [done..|].
  destruct (negb _); [done|].
  destruct (base64.DecodeString parts1) as [payload [e|]]; [done|].
  by destruct (strings.SplitN payload ":" 2) as [|username [|password [|]]].
Qed.

(** The header of a user name without colon and a password decodes to
    the two. *)
Lemma basicAuth_EncodeToString (username password : string) :
  strings.every (λ c, negb (Ascii.eqb c ":")) username = true →
  basicAuth ("Basic " +:+ base64.EncodeToString (username +:+ ":" +:+ password))
  = inr (username, password).
Proof.
  intros Hcolon.
  set (payload := username +:+ ":" +:+ password).
  assert (Hplain : strings.every plain (base64.EncodeToString payload) = true).
  { eapply every_impl; [apply is_base64_plain|apply EncodeToString_is_base64]. }
  assert (Hne : base64.EncodeToString payload ≠ "").
  { apply EncodeToString_nonempty. unfold payload. by destruct username. }
  unfold basicAuth. rewrite TrimSpace_Basic by done.
  change ("Basic " +:+ base64.EncodeToString payload)
    with ("Basic" +:+ String " " (base64.EncodeToString payload)) at 2.
  rewrite Split_first by done.
  rewrite Split_none
    by (eapply every_impl; [|exact Hplain];
        intros c Hc; by rewrite plain_not_space).
  cbn [String.append String.eqb Ascii.eqb Bool.eqb].
  change (negb (String.eqb (strings.ToLower "Basic") "basic")) with false.
  cbv iota. unfold base64.DecodeString.
  rewrite removeNewlines_plain, decode_EncodeToString by done.
  unfold payload, strings.SplitN.
  change (username +:+ ":" +:+ password)
    with (username +:+ String ":" password).
  by rewrite cut_first.
Qed.

(** C8.  Round trip: for a user name without colon and any password,
    colons in it or not, the header "Basic " followed by the base64 of
    user name, colon, password is decoded with success to that user
    name and that password, and these two are what the authenticator
    hands to the collaborator. *)
Theorem basic_auth_round_trip {W} (username password : string) :
  strings.every (λ c, negb (Ascii.eqb c ":")) username = true →
  let header :=
    "Basic " +:+ base64.EncodeToString (username +:+ ":" +:+ password) in
  basicAuth header = inr (username, password)
  ∧ ∀ (a : KeystoneAuthenticator (W := W)) w,
      AuthenticateRequest a (request_with header) w
      = AuthenticatePassword (osClient a) username password w.
Proof.
  intros Hcolon header. subst header.
  pose proof (basicAuth_EncodeToString username password Hcolon) as Hdec.
  split; [done|]. intros a w.
  by rewrite AuthenticateRequest_basicAuth, Get_request_with, Hdec.
Qed.

Lemma basic_auth_round_trip_witness :
  basicAuth ("Basic " +:+ base64.EncodeToString ("user1" +:+ ":" +:+ "password1:withcolon"))
  = inr ("user1", "password1:withcolon")
  ∧ ∀ (a : KeystoneAuthenticator (W := unit)) w,
      AuthenticateRequest a
        (request_with
           ("Basic " +:+ base64.EncodeToString ("user1" +:+ ":" +:+ "password1:withcolon")))
        w
      = AuthenticatePassword (osClient a) "user1" "password1:withcolon" w.
Proof.
  apply (basic_auth_round_trip (W := unit) "user1" "password1:withcolon").
  reflexivity.
Defined.

(** C5, as the code has it.  A request whose header decodes gets
    exactly the answer of the password collaborator, so an error comes
    from the decoding of the header or from the collaborator only.  The
    test collaborator answers a wrong password with no user, false and
    no error, and this is what the authenticator returns.  The client
    of the identity provider answers every log-in the provider turns
    down with no user, false and the error "Failed to authenticate",
    and a log-in the provider accepts with the user and true. *)
Theorem keystone_authenticator_returns_collaborator_answer {W}
    (a : KeystoneAuthenticator (W := W)) req w :
  let header := Get (Request_Header req) "Authorization" in
  (∀ username password,
     basicAuth header = inr (username, password) →
     AuthenticateRequest a req w
     = AuthenticatePassword (osClient a) username password w)
  ∧ (∀ user ok e w',
       AuthenticateRequest a req w = ((user, ok, Some e), w') →
       (basicAuth header = inl e ∧ user = None ∧ ok = false ∧ w' = w)
       ∨ ∃ username password,
           basicAuth header = inr (username, password)
           ∧ AuthenticatePassword (osClient a) username password w
             = ((user, ok, Some e), w'))
  ∧ (∀ username password,
       basicAuth header = inr (username, password) →
       default "" (userPasswordMap !! username) ≠ password →
       AuthenticateRequest {| osClient := testOpenstackClient |} req w
       = ((None, false, None), w))
  ∧ (∀ AuthenticatedClient url username password err w',
       basicAuth header = inr (username, password) →
       AuthenticatedClient
         {| gophercloud.IdentityEndpoint := url;
            gophercloud.Username := username;
            gophercloud.Password := password |} w = (err, w') →
       AuthenticateRequest
         {| osClient :=
              OpenstackClient_Password AuthenticatedClient {| authURL := url |} |}
         req w
       = (match err with
          | Some _ => (None, false, Some (errorString "Failed to authenticate"))
          | None => (Some {| Name := username |}, true, None)
          end, w')).
Proof.
  intros header. subst header. repeat split.
  - intros username password Hdec.
    by rewrite AuthenticateRequest_basicAuth, Hdec.
  - intros user ok e w'. rewrite AuthenticateRequest_basicAuth.
    destruct (basicAuth _) as [e'|[username password]].
    + intros [= <- <- <- <-]. by left.
    + intros Hanswer. right. by exists username, password.
  - intros username password Hdec Hwrong.
    rewrite AuthenticateRequest_basicAuth, Hdec.
    cbn [osClient AuthenticatePassword testOpenstackClient].
    by destruct (String.eqb_spec (default "" (userPasswordMap !! username)) password).
  - intros AuthenticatedClient url username password err w' Hdec Hlogin.
    rewrite AuthenticateRequest_basicAuth, Hdec.
    cbn [osClient AuthenticatePassword OpenstackClient_Password].
    unfold OpenstackClient_AuthenticatePassword, mbind, State_bind.
    cbn [authURL]. rewrite Hlogin. by destruct err.
Qed.

(** Whatever the log-in at the provider does, the client of the
    identity provider never answers with no user, false and no error. *)
Lemma OpenstackClient_no_quiet_refusal :
  ¬ ∃ (AuthenticatedClient : gophercloud.AuthOptions → State unit (option error))
      url username password,
      OpenstackClient_AuthenticatePassword AuthenticatedClient
        {| authURL := url |} username password tt
      = ((None, false, None), tt).
Proof.
  intros (AuthenticatedClient & url & username & password & Hanswer).
  unfold OpenstackClient_AuthenticatePassword, mbind, State_bind in Hanswer.
  destruct (AuthenticatedClient _ tt) as [[e|] []]; discriminate.
Qed.

(** A header that does not decode gives the error of the decoding. *)
Lemma AuthenticateRequest_malformed {W} (a : KeystoneAuthenticator (W := W)) req w e :
  basicAuth (Get (Request_Header req) "Authorization") = inl e →
  AuthenticateRequest a req w = ((None, false, Some e), w).
Proof. intros Hdec. by rewrite AuthenticateRequest_basicAuth, Hdec. Qed.

End AuthenticatorResults.

(** C5, as the claim has it, fails for the client of the identity
    provider: user1 is known to the provider with password1, the
    request brings password2, and the answer is the error "Failed to
    authenticate", not the answer without error. *)
Lemma keystone_wrong_password_is_an_error :
  Authenticator.basicAuth
    ("Basic " +:+ base64.EncodeToString "user1:password2")
  = inr ("user1", "password2")
  ∧ Authenticator.AuthenticateRequest
      {| Authenticator.osClient :=
           Authenticator.OpenstackClient_Password
             (Authenticator.provider {[ "user1" := "password1" ]})
             {| Authenticator.authURL := "https://auth-url/v2.0" |} |}
      (Authenticator.request_with
         ("Basic " +:+ base64.EncodeToString "user1:password2")) tt
    = ((None, false, Some (errorString "Failed to authenticate")), tt)
  ∧ Authenticator.AuthenticateRequest
      {| Authenticator.osClient :=
           Authenticator.OpenstackClient_Password
             (Authenticator.provider {[ "user1" := "password1" ]})
             {| Authenticator.authURL := "https://auth-url/v2.0" |} |}
      (Authenticator.request_with
         ("Basic " +:+ base64.EncodeToString "user1:password2")) tt
    ≠ ((None, false, None), tt).
Proof. split; [|split]; [by vm_compute..|]. vm_compute. discriminate. Qed.

Lemma keystone_authenticator_returns_collaborator_answer_witness :
  Authenticator.AuthenticateRequest
    {| Authenticator.osClient := Authenticator.testOpenstackClient |}
    (Authenticator.request_with
       ("Basic " +:+ base64.EncodeToString "user1:password2")) tt
  = ((None, false, None), tt).
Proof.
  refine (proj1 (proj2 (proj2
            (keystone_authenticator_returns_collaborator_answer
               {| Authenticator.osClient := Authenticator.testOpenstackClient |}
               (Authenticator.request_with
                  ("Basic " +:+ base64.EncodeToString "user1:password2"))
               tt)))
            "user1" "password2" _ _).
  - vm_compute. reflexivity.
  - vm_compute. discriminate.
Defined.

Lemma keystone_privileged_subject_granted_witness :
  Keystone.Authorize
    (Keystone.cache_user1
       (Keystone.counting (λ _ _, (false, Some (errorString "provider down")))))
    {| GetUserName := "system:serviceaccount:default:builder";
       GetNamespace := "tenant9" |} 0
  = (None, 0)
  ∧ ∀ answer users tenants calls,
      Keystone.Authorize
        {| Keystone.osClient := Keystone.counting answer;
           Keystone.userMap := users; Keystone.tenantMap := tenants |}
        {| GetUserName := "system:serviceaccount:default:builder";
           GetNamespace := "tenant9" |} calls
      = (None, calls).
Proof.
  apply (keystone_privileged_subject_granted
           (Keystone.cache_user1
              (Keystone.counting
                 (λ _ _, (false, Some (errorString "provider down")))))
           {| GetUserName := "system:serviceaccount:default:builder";
              GetNamespace := "tenant9" |} 0).
  left. reflexivity.
Defined.

Lemma keystone_failed_sync_keeps_cache_witness :
  Keystone.syncUserMap
    (Keystone.cache_user1
       {| Keystone.roleCheck := λ _ _, mret (false, None);
          Keystone.getUsers := mret ([], Some (errorString "connection refused"));
          Keystone.getTenants := mret ([], Some (errorString "connection refused")) |})
    tt
  = ((Some (errorString "connection refused"),
      Keystone.cache_user1
        {| Keystone.roleCheck := λ _ _, mret (false, None);
           Keystone.getUsers := mret ([], Some (errorString "connection refused"));
           Keystone.getTenants := mret ([], Some (errorString "connection refused")) |}),
     tt).
Proof.
  refine (proj1 (proj1 (keystone_failed_sync_keeps_cache
                          (Keystone.cache_user1
                             {| Keystone.roleCheck := λ _ _, mret (false, None);
                                Keystone.getUsers :=
                                  mret ([], Some (errorString "connection refused"));
                                Keystone.getTenants :=
                                  mret ([], Some (errorString "connection refused")) |})
                          tt)
                   [] (errorString "connection refused") tt _)).
  reflexivity.
Defined.

Lemma keystone_role_check_decides_witness :
  Keystone.Authorize
    (Keystone.cache_user1
       (Keystone.counting (λ _ _, (true, Some (errorString "provider down")))))
    {| GetUserName := "user1"; GetNamespace := "tenant1" |} 0
  = (Some (errorString "Keystone authorization failed"), 1).
Proof.
  refine (proj1 (keystone_role_check_decides
                   (Keystone.cache_user1
                      (Keystone.counting
                         (λ _ _, (true, Some (errorString "provider down")))))
                   {| GetUserName := "user1"; GetNamespace := "tenant1" |} 0
                   true (Some (errorString "provider down")) 1 _ _ _)
            (errorString "provider down") _);
    reflexivity.
Defined.

Lemma keystone_empty_id_fails_role_check_witness :
  Keystone.Authorize
    {| Keystone.osClient :=
         Keystone.OpenstackClient unit (λ _ _ calls, ([], S calls))
           (λ calls, ([], S calls)) (λ calls, ([], S calls)) unit
           (λ _, ([], None)) (λ _, ([], None)) (λ _, ([], None));
       Keystone.userMap := {[ "user1" := "12" ]};
       Keystone.tenantMap := {[ "tenant1" := "123" ]} |}
    {| GetUserName := "user1"; GetNamespace := "tenant3" |} 0
  = (Some (errorString "Keystone authorization failed"), 0).
Proof.
  refine (proj2 (keystone_empty_id_fails_role_check
                   (λ _ _ calls, ([], S calls)) (λ calls, ([], S calls))
                   (λ calls, ([], S calls))
                   (λ _ : unit, (@nil unit, None))
                   (λ _, ([], None)) (λ _, ([], None)))
            {[ "user1" := "12" ]} {[ "tenant1" := "123" ]}
            {| GetUserName := "user1"; GetNamespace := "tenant3" |} 0 _ _ _);
    [reflexivity | reflexivity | right; reflexivity].
Defined.

(** ** The tests of the repository, replayed *)

(** TestKeystoneAuth. *)
Example TestKeystoneAuth :
  map keystone_auth_outcome
    [None;
     Some "Bearer foo";
     Some "Basic";
     Some "Basic  ";
     Some "Basic !@#$";
     Some ("Basic " +:+ base64.EncodeToString "user_without_password");
     Some ("Basic " +:+ base64.EncodeToString "user1:");
     Some ("Basic " +:+ base64.EncodeToString "user1:password1:withcolon");
     Some ("Basic " +:+ base64.EncodeToString "user1:password1");
     Some ("Basic " +:+ base64.EncodeToString "user1:password2")]
  = [(true, false); (true, false); (true, false); (true, false);
     (true, false); (true, false); (false, false); (false, false);
     (false, true); (false, false)].
Proof. by vm_compute. Qed.

(** TestAuthorize. *)
Example TestAuthorize :
  [authorize_outcome "" ""; authorize_outcome "user1" "";
   authorize_outcome "user1" "tenant1"; authorize_outcome "user1" "tenant2";
   authorize_outcome "user3" "tenant1"]
  = [true; true; false; false; true].
Proof. by vm_compute. Qed.

(** * Further results *)

(** ** The union authorizer, whatever its members do to the world *)

Section UnionFurther.
Import Union.
Context {W : Type}.
Variable newAggregate : list error → option error.
Implicit Types (handlers : list (Authorizer (W := W))) (a : Attributes) (w : W).

(** The loop ends in one of two ways: at the first member that grants,
    or behind the last member with the errors of all. *)
Lemma Authorize_range_cases handlers :
  ∀ a errlist w,
    (∃ k h errs w1 w2,
        handlers !! k = Some h
        ∧ denials (take k handlers) a w = Some (errs, w1)
        ∧ h a w1 = (None, w2)
        ∧ Authorize_range newAggregate handlers a errlist w = (None, w2))
    ∨ (∃ errs w1,
          denials handlers a w = Some (errs, w1)
          ∧ Authorize_range newAggregate handlers a errlist w
            = (newAggregate (errlist ++ errs), w1)).
Proof.
  induction handlers as [|h rest IH]; intros a errlist w.
  - right. exists [], w. by rewrite app_nil_r.
  - destruct (h a w) as [[e|] w'] eqn:Hh.
    + destruct (IH a (errlist ++ [e]) w')
        as [(k & h' & errs & w1 & w2 & Hk & Hd & Hg & Hr)|(errs & w1 & Hd & Hr)].
      * left. exists (S k), h', (e :: errs), w1, w2.
        cbn [take denials Authorize_range]. unfold mbind at 2, State_bind.
        rewrite Hh, Hd. done.
      * right. exists (e :: errs), w1.
        cbn [denials Authorize_range]. unfold mbind at 2, State_bind.
        rewrite Hh, Hd, Hr. by rewrite <-(assoc_L (++)).
    + left. exists 0, h, [], w, w'.
      cbn [take denials Authorize_range]. unfold mbind, State_bind.
      by rewrite Hh.
Qed.

(** X1.  What [Authorize] answers: either some member [k] grants after
    all members before it denied, and the answer is nil with the world
    as member [k] left it; or all members deny, and the answer is what
    [errors.NewAggregate] makes of their errors, in list order. *)
Theorem union_answer_is_first_grant_or_aggregate handlers a w :
  (∃ k h errs w1 w2,
      handlers !! k = Some h
      ∧ denials (take k handlers) a w = Some (errs, w1)
      ∧ h a w1 = (None, w2)
      ∧ Authorize newAggregate handlers a w = (None, w2))
  ∨ (∃ errs w1,
        denials handlers a w = Some (errs, w1)
        ∧ length errs = length handlers
        ∧ Authorize newAggregate handlers a w = (newAggregate errs, w1)).
Proof.
  destruct (Authorize_range_cases handlers a [] w)
    as [Hgrant|(errs & w1 & Hd & Hr)]; [by left|].
  right. exists errs, w1. split; [done|]. split; [|done].
  by eapply denials_length.
Qed.

(** X2.  A union never grants on its own: when [Authorize] answers nil
    for a list with members, and [errors.NewAggregate] answers no list
    with errors in it with nil, some member has answered nil. *)
Theorem union_grant_comes_from_a_member handlers a w w' :
  (∀ errs, errs ≠ [] → newAggregate errs ≠ None) →
  handlers ≠ [] →
  Authorize newAggregate handlers a w = (None, w') →
  ∃ k h w1, handlers !! k = Some h ∧ h a w1 = (None, w').
Proof.
  intros Hagg Hne Hnil.
  destruct (Authorize_range_cases handlers a [] w)
    as [(k & h & errs & w1 & w2 & Hk & Hd & Hg & Hr)|(errs & w1 & Hd & Hr)].
  - unfold Authorize in Hnil. rewrite Hr in Hnil. injection Hnil as <-.
    by exists k, h, w1.
  - unfold Authorize in Hnil. rewrite Hr in Hnil. injection Hnil as Hn _.
    destruct (Hagg errs); [|done].
    apply denials_length in Hd. by destruct errs, handlers.
Qed.

(** The loop over members that all deny, and over members one of which
    grants. *)
Lemma Authorize_range_denied handlers :
  ∀ a errlist w errs w1,
    denials handlers a w = Some (errs, w1) →
    Authorize_range newAggregate handlers a errlist w
    = (newAggregate (errlist ++ errs), w1).
Proof.
  intros a errlist w errs w1 Hd.
  destruct (Authorize_range_cases handlers a errlist w)
    as [(k & h & errs' & w1' & w2 & Hk & Hd' & Hg & _)|(errs' & w1' & Hd' & Hr)].
  - exfalso. revert k a w errs w1 errs' w1' Hd Hk Hd' Hg.
    induction handlers as [|h0 rest IH]; intros k a w errs w1 errs' w1' Hd Hk Hd' Hg;
      [done|].
    cbn [denials] in Hd. destruct k as [|k].
    + cbn in Hk, Hd'. injection Hk as ->. injection Hd' as <- <-.
      by rewrite Hg in Hd.
    + cbn [take denials lookup list_lookup] in Hk, Hd'.
      destruct (h0 a w) as [[e|] w0]; [|done].
      destruct (denials rest a w0) as [[errs0 w3]|] eqn:Hrest; [|done].
      destruct (denials (take k rest) a w0) as [[errs1 w4]|] eqn:Htake; [|done].
      cbn in Hd'. injection Hd' as <- <-.
      by eapply (IH k a w0 errs0 w3 errs1 w4).
  - rewrite Hd in Hd'. by injection Hd' as <- <-.
Qed.

Lemma Authorize_range_granted handlers :
  ∀ a w,
    denials handlers a w = None →
    ∃ w2, ∀ errlist,
      Authorize_range newAggregate handlers a errlist w = (None, w2).
Proof.
  induction handlers as [|h rest IH]; intros a w Hd; [done|].
  cbn [denials] in Hd. destruct (h a w) as [[e|] w'] eqn:Hh.
  - destruct (denials rest a w') as [[errs w1]|] eqn:Hrest; [done|].
    destruct (IH a w' Hrest) as [w2 Hw2]. exists w2. intros errlist.
    cbn [Authorize_range]. unfold mbind, State_bind. by rewrite Hh.
  - exists w'. intros errlist.
    cbn [Authorize_range]. unfold mbind, State_bind. by rewrite Hh.
Qed.

Lemma Authorize_range_app pre :
  ∀ rest a errlist w,
    Authorize_range newAggregate (pre ++ rest) a errlist w
    = match denials pre a w with
      | Some (errs, w1) =>
          Authorize_range newAggregate rest a (errlist ++ errs) w1
      | None => Authorize_range newAggregate pre a errlist w
      end.
Proof.
  induction pre as [|h pre IH]; intros rest a errlist w.
  - cbn. by rewrite app_nil_r.
  - cbn [app Authorize_range denials]. unfold mbind at 1 3, State_bind.
    destruct (h a w) as [[e|] w'] eqn:Hh; [|done].
    rewrite IH. destruct (denials pre a w') as [[errs w1]|]; [|done].
    cbn. by rewrite <-(assoc_L (++)).
Qed.

(** X3.  Unions nest.  With members in both lists, and an
    [errors.NewAggregate] that answers no list with errors in it with
    nil, the union of the union of [first] and the union of [second]
    grants exactly when the union of the members of both lists in a row
    does, and leaves the same world. *)
Theorem union_of_unions_grants_as_flat_union first second a w :
  (∀ errs, errs ≠ [] → newAggregate errs ≠ None) →
  first ≠ [] → second ≠ [] →
  let nested :=
    Authorize newAggregate
      (New [Authorize newAggregate (New first);
            Authorize newAggregate (New second)]) a w in
  let flat := Authorize newAggregate (New (first ++ second)) a w in
  (fst nested = None ↔ fst flat = None) ∧ snd nested = snd flat.
Proof.
  intros Hagg Hfirst Hsecond nested flat. subst nested flat.
  unfold Authorize, New. rewrite !Authorize_range_app.
  cbn [Authorize_range]. unfold mbind, State_bind, mret, State_ret.
  destruct (denials first a w) as [[errs1 w1]|] eqn:Hd1.
  - assert (errs1 ≠ []) as Hne1
      by (apply denials_length in Hd1; by destruct errs1, first).
    rewrite (Authorize_range_denied first a [] w errs1 w1 Hd1).
    destruct (newAggregate ([] ++ errs1)) as [e1|] eqn:He1;
      [|by destruct (Hagg errs1)].
    destruct (denials second a w1) as [[errs2 w2]|] eqn:Hd2.
    + assert (errs2 ≠ []) as Hne2
        by (apply denials_length in Hd2; by destruct errs2, second).
      rewrite !(Authorize_range_denied second a _ w1 errs2 w2 Hd2).
      destruct (newAggregate ([] ++ errs2)) as [e2|] eqn:He2;
        [|by destruct (Hagg errs2)].
      cbn [fst snd]. split; [|done].
      split; intros Hnil; exfalso.
      * by apply (Hagg [e1; e2]).
      * apply (Hagg (([] ++ errs1) ++ errs2)); [|done]. by destruct errs1.
    + destruct (Authorize_range_granted second a w1 Hd2) as [w2 Hw2].
      by rewrite !Hw2.
  - destruct (Authorize_range_granted first a w Hd1) as [w2 Hw2].
    by rewrite !Hw2.
Qed.

End UnionFurther.

(** ** The cache of the Keystone authorizer *)

Section CacheFurther.
Import Keystone.
Context {W : Type}.
Implicit Types (ka : keystoneAuthorizer (W := W)) (a : Attributes) (w : W).

(** The loop that fills a map with the enabled entries of a listing:
    a key maps to the value of the last enabled entry with that key. *)
Lemma fill_lookup {A : Type} (enabled : A → bool) (key val : A → string)
    (listing : list A) :
  ∀ (m : gmap string string) (k : string),
    foldl (λ (m : gmap string string) (x : A),
             if enabled x then <[key x := val x]> m else m) m listing !! k
    = match last (filter (λ x, enabled x = true ∧ key x = k) listing) with
      | Some x => Some (val x)
      | None => m !! k
      end.
Proof.
  induction listing as [|x listing IH]; intros m k; [done|].
  cbn [foldl]. rewrite IH, filter_cons.
  destruct (decide (enabled x = true ∧ key x = k)) as [[Hen Hkey]|Hno].
  - rewrite Hen, last_cons.
    destruct (last (filter _ listing)); [done|].
    by rewrite <-Hkey, lookup_insert_eq.
  - destruct (last (filter _ listing)); [done|].
    destruct (enabled x) eqn:Hen; [|done].
    rewrite lookup_insert_ne; [done|]. intros Hkey. by apply Hno.
Qed.

(** X4.  A listing of the users that succeeds replaces [userMap]: a
    name maps to the id of the last enabled user of that name in the
    listing, and to nothing when the listing has no enabled user of
    that name, whatever the map held before; [tenantMap] and the client
    stay, and no error is returned. *)
Theorem keystone_sync_caches_the_enabled_users ka w userList w' :
  getUsers (osClient ka) w = ((userList, None), w') →
  ∃ ka',
    syncUserMap ka w = ((None, ka'), w')
    ∧ osClient ka' = osClient ka
    ∧ tenantMap ka' = tenantMap ka
    ∧ ∀ name,
        userMap ka' !! name
        = users.ID <$> last (filter (λ user, users.Enabled user = true
                                             ∧ users.Username user = name)
                               userList).
Proof.
  intros Hget. eexists. unfold syncUserMap, mbind, State_bind.
  rewrite Hget. split; [done|]. cbn [osClient tenantMap userMap].
  split; [done|]. split; [done|]. intros name.
  rewrite fill_lookup, lookup_empty. by destruct (last _).
Qed.

(** X5.  The same for the tenants: a listing that succeeds replaces
    [tenantMap] by the map from the name of every enabled tenant to the
    id of the last enabled tenant of that name; [userMap] and the client
    stay. *)
Theorem keystone_sync_caches_the_enabled_tenants ka w tenantList w' :
  getTenants (osClient ka) w = ((tenantList, None), w') →
  ∃ ka',
    syncTenantMap ka w = ((None, ka'), w')
    ∧ osClient ka' = osClient ka
    ∧ userMap ka' = userMap ka
    ∧ ∀ name,
        tenantMap ka' !! name
        = tenants.ID <$> last (filter (λ tenant, tenants.Enabled tenant = true
                                                 ∧ tenants.Name tenant = name)
                                 tenantList).
Proof.
  intros Hget. eexists. unfold syncTenantMap, mbind, State_bind.
  rewrite Hget. split; [done|]. cbn [osClient tenantMap userMap].
  split; [done|]. split; [done|]. intros name.
  rewrite fill_lookup, lookup_empty. by destruct (last _).
Qed.

(** X6.  [Authorize] answers with nil or with one of its two own
    errors, whatever the client of the identity provider answers: an
    error of the client never reaches the caller. *)
Theorem keystone_authorize_answers ka a w :
  fst (Authorize ka a w)
  ∈ [None;
     Some (errorString "Keystone authorization failed");
     Some (errorString "User not authorized through keystone for namespace")].
Proof.
  unfold Authorize, mbind, State_bind.
  destruct (strings.HasPrefix _ _); [set_solver|].
  destruct (isWhiteListedUser _); [set_solver|].
  destruct (roleCheck _ _ _ _) as [[hasRole [e|]] w']; [set_solver|].
  destruct hasRole; set_solver.
Qed.

End CacheFurther.

(** ** The client of the identity provider *)

Section ProviderFurther.
Import Keystone.
Context {W Page Role : Type}.
Variable ListRoles : string → string → State W (Pager Page).
Variables ListUsers ListTenants : State W (Pager Page).
Variable ExtractRoles : Page → list Role * option error.
Variable ExtractUsers : Page → list users.User * option error.
Variable ExtractTenants : Page → list tenants.Tenant * option error.

Let client : Interface :=
  OpenstackClient Page ListRoles ListUsers ListTenants Role
    ExtractRoles ExtractUsers ExtractTenants.






(** The two guards of [roleCheck]. *)
Lemma OpenstackClient_roleCheck_guard userID tenantID w :
  userID = "" ∨ tenantID = "" →
  roleCheck client userID tenantID w
  = ((false, Some (errorString "UserID null during authorization")), w).
Proof.
  intros Hid. cbn [roleCheck client OpenstackClient].
  unfold OpenstackClient_roleCheck.
  destruct (String.eqb_spec userID "") as [->|Hu]; [done|].
  destruct Hid as [?| ->]; done.
Qed.

(** X10.  A user whom the provider does not list as enabled is locked
    out by the next sync: after a [syncUserMap] whose listing succeeds
    and has no enabled user of the subject's name, [Authorize] answers
    a subject that is neither a service account nor on the white list
    with "Keystone authorization failed", in every namespace and
    without a call to the provider, whatever the cache held before. *)
Theorem keystone_sync_locks_out_unlisted_users users tenants a w userList w1 :
  strings.HasPrefix (GetUserName a) "system:serviceaccount:" = false →
  isWhiteListedUser (GetUserName a) = false →
  getUsers client w = ((userList, None), w1) →
  Forall (λ user, ¬ (users.Enabled user = true
                     ∧ users.Username user = GetUserName a)) userList →
  let synced :=
    snd (fst (syncUserMap {| osClient := client; userMap := users;
                             tenantMap := tenants |} w)) in
  ∀ w2, Authorize synced a w2
        = (Some (errorString "Keystone authorization failed"), w2).
Proof.
  intros Hp Hl Hget Hnone synced w2. subst synced.
  unfold syncUserMap, mbind at 1, State_bind at 1.
  cbn [osClient]. rewrite Hget. cbn [mret State_ret fst snd].
  eapply Authorize_roleCheck with (err := Some _); [done..|].
  cbn [osClient userMap tenantMap]. apply OpenstackClient_roleCheck_guard.
  left. unfold index. rewrite fill_lookup, lookup_empty.
  assert (filter (λ user, users.Enabled user = true
                          ∧ users.Username user = GetUserName a) userList = [])
    as ->; [|done].
  clear Hget. induction Hnone as [|user userList Hno _ IH]; [done|].
  by rewrite filter_cons, decide_False.
Qed.

End ProviderFurther.

(** ** The header of a request, token by token *)

Section HeaderFurther.
Import strings Authenticator.

Lemma rev_app_append (s1 s2 acc : string) :
  String.rev_app (s1 +:+ s2) acc = String.rev_app s2 (String.rev_app s1 acc).
Proof.
  revert acc. induction s1 as [|c s1 IH]; intros acc; [done|].
  cbn [String.append String.rev_app]. fold String.append. apply IH.
Qed.

Lemma space2_plain_first c1 c2 : plain c1 = true → space2 c1 c2 = false.
Proof.
  unfold plain, space2. intros [_ Hlt%N.ltb_lt]%andb_prop.
  by destruct (N.eqb_spec (N_of_ascii c1) 0xC2) as [?|_]; [lia|].
Qed.

Lemma space3_plain_first c1 c2 c3 : plain c1 = true → space3 c1 c2 c3 = false.
Proof.
  unfold plain, space3. intros [_ Hlt%N.ltb_lt]%andb_prop.
  destruct (N.eqb_spec (N_of_ascii c1) 0xE1) as [?|_]; [lia|].
  destruct (N.eqb_spec (N_of_ascii c1) 0xE2) as [?|_]; [lia|].
  by destruct (N.eqb_spec (N_of_ascii c1) 0xE3) as [?|_]; [lia|].
Qed.

(** [TrimSpace] leaves a string alone that starts and ends with a plain
    byte. *)
Lemma TrimSpace_plain_ends (s t t' : string) (c c' : ascii) :
  s = String c t → plain c = true →
  String.rev s = String c' t' → plain c' = true →
  TrimSpace s = s.
Proof.
  intros Hs Hc Hrev Hc'. unfold TrimSpace.
  assert (Hleft : TrimLeft_space s = s).
  { rewrite Hs. apply trim_head_stops; [by apply plain_space1|..].
    - intros c2. by apply space2_plain_first.
    - intros c2 c3. by apply space3_plain_first. }
  rewrite Hleft. unfold TrimRight_space. rewrite Hrev, trim_head_stops.
  - by rewrite <-Hrev, rev_involutive.
  - by apply plain_space1.
  - intros c2. by apply space2_plain_last.
  - intros c2 c3. by apply space3_plain_last.
Qed.

(** A string that starts with a plain byte and ends in plain bytes. *)
Lemma TrimSpace_plain_tail (c : ascii) (t tail : string) :
  plain c = true → every plain tail = true → tail ≠ "" →
  TrimSpace (String c t +:+ tail) = String c t +:+ tail.
Proof.
  intros Hc Htail Hne.
  destruct (rev_app_plain_head tail (String.rev_app (String c t) "") Hne Htail)
    as (c' & t' & Hrev & Hc').
  eapply (TrimSpace_plain_ends _ (t +:+ tail) t' c c'); [done|done| |done].
  unfold String.rev. by rewrite rev_app_append.
Qed.

Lemma TrimSpace_blank (s : string) : every space1 s = true → TrimSpace s = "".
Proof.
  intros Hs. unfold TrimSpace.
  assert (TrimLeft_space s = "") as ->; [|done].
  unfold TrimLeft_space. induction s as [|c s IH]; [done|].
  apply every_plain_tail in Hs as [Hc Hs]. cbn [trim_head]. rewrite Hc. auto.
Qed.

Lemma cut_none s sep :
  every (λ c, negb (Ascii.eqb c sep)) s = true → cut s sep = None.
Proof.
  induction s as [|c s IH]; [done|].
  intros [Hc%negb_true_iff Hs]%every_plain_tail. cbn [cut].
  by rewrite Hc, IH.
Qed.

Lemma plain_no_space (s : string) :
  every plain s = true → every (λ c, negb (Ascii.eqb c " ")) s = true.
Proof.
  apply every_impl. intros c Hc. by rewrite plain_not_space.
Qed.

(** What [basicAuth] makes of a header once its first two tokens are
    known: a scheme and a token of plain bytes, one space between them,
    and nothing or a space and more plain bytes behind. *)
Lemma basicAuth_tokens (scheme token tail : string) :
  every plain scheme = true → scheme ≠ "" →
  every plain token = true → token ≠ "" →
  tail = "" ∨ (∃ more, tail = String " " more
                       ∧ every plain more = true ∧ more ≠ "") →
  basicAuth (scheme +:+ String " " (token +:+ tail))
  = if negb (String.eqb (ToLower scheme) "basic")
    then inl (errorString "invalid header")
    else match base64.DecodeString token with
         | (_, Some e) => inl e
         | (payload, None) =>
             match SplitN payload ":" 2 with
             | [username; password] => inr (username, password)
             | _ => inl (errorString "malformed basic auth header")
             end
         end.
Proof.
  intros Hscheme Hs Htoken Ht Htail.
  set (header := scheme +:+ String " " (token +:+ tail)).
  assert (Htrim : TrimSpace header = header).
  { destruct scheme as [|c scheme]; [done|].
    apply every_plain_tail in Hscheme as [Hc _]. unfold header.
    destruct Htail as [->|(more & -> & Hmore & Hm)].
    - rewrite append_nil_r.
      replace (String c scheme +:+ String " " token)
        with (String c (scheme +:+ " ") +:+ token)
        by (simpl; by rewrite append_assoc).
      by apply TrimSpace_plain_tail.
    - replace (String c scheme +:+ String " " (token +:+ String " " more))
        with (String c (scheme +:+ String " " (token +:+ " ")) +:+ more)
        by (simpl; rewrite append_assoc; simpl; by rewrite append_assoc).
      by apply TrimSpace_plain_tail. }
  assert (Hsplit : ∃ parts, Split header " " = scheme :: token :: parts).
  { unfold header. rewrite Split_first by by apply plain_no_space.
    destruct Htail as [->|(more & -> & Hmore & Hm)].
    - rewrite append_nil_r, Split_none by by apply plain_no_space. by exists [].
    - rewrite Split_first by by apply plain_no_space. by eexists. }
  destruct Hsplit as [parts Hsplit].
  unfold basicAuth. rewrite Htrim, Hsplit.
  assert (String.eqb header "" = false) as ->
    by (unfold header; by destruct scheme).
  done.
Qed.

End HeaderFurther.

(** ** The Keystone authenticator on headers that are not as expected *)

Section AuthenticatorFurther.
Import strings Authenticator.
Context {W : Type}.
Implicit Types (a : KeystoneAuthenticator (W := W)) (req : Request) (w : W).

(** X11.  A request without [Authorization] header, or whose header is
    made of ASCII white space only, is turned down with the error
    "Authorization header isempty, failing request", and the password
    collaborator is not called. *)
Theorem keystone_blank_header_is_an_error a req w :
  every space1 (Get (Request_Header req) "Authorization") = true →
  AuthenticateRequest a req w
  = ((None, false,
      Some (errorString "Authorization header isempty, failing request")), w).
Proof.
  intros Hblank. rewrite AuthenticateRequest_basicAuth.
  unfold basicAuth. by rewrite TrimSpace_blank.
Qed.

(** X12.  A header of one token, plain bytes without a space, is turned
    down with the error "invalid header", whatever the token is, the
    word Basic included; the collaborator is not called. *)
Theorem keystone_one_token_header_is_invalid a req w :
  Get (Request_Header req) "Authorization" ≠ "" →
  every plain (Get (Request_Header req) "Authorization") = true →
  AuthenticateRequest a req w
  = ((None, false, Some (errorString "invalid header")), w).
Proof.
  intros Hne Hplain. rewrite AuthenticateRequest_basicAuth.
  set (header := Get (Request_Header req) "Authorization") in *.
  destruct (rev_app_plain_head header "" Hne Hplain) as (c' & t' & Hrev & Hc').
  destruct header as [|c t] eqn:Hheader; [done|].
  pose proof Hplain as [Hc _]%every_plain_tail.
  unfold basicAuth.
  rewrite (TrimSpace_plain_ends (String c t) t t' c c') by done.
  by rewrite Split_none by by apply plain_no_space.
Qed.

(** X13.  A header whose scheme, in lower case, is not "basic" is
    turned down with the error "invalid header", whatever follows the
    scheme. *)
Theorem keystone_other_scheme_is_invalid a req w scheme token :
  every plain scheme = true → scheme ≠ "" →
  every plain token = true → token ≠ "" →
  ToLower scheme ≠ "basic" →
  Get (Request_Header req) "Authorization" = scheme +:+ " " +:+ token →
  AuthenticateRequest a req w
  = ((None, false, Some (errorString "invalid header")), w).
Proof.
  intros Hscheme Hs Htoken Ht Hother Hheader.
  rewrite AuthenticateRequest_basicAuth, Hheader.
  change (scheme +:+ " " +:+ token) with (scheme +:+ String " " token).
  rewrite <-(append_nil_r token), basicAuth_tokens by auto.
  by destruct (String.eqb_spec (ToLower scheme) "basic").
Qed.

(** X14.  The scheme is matched without regard to case: with any
    spelling of "basic" in ASCII letters, the header of a user name
    without colon and a password is decoded to the two and they are
    handed to the collaborator. *)
Theorem keystone_scheme_is_case_insensitive a req w scheme username password :
  every plain scheme = true →
  ToLower scheme = "basic" →
  every (λ c, negb (Ascii.eqb c ":")) username = true →
  Get (Request_Header req) "Authorization"
  = scheme +:+ " " +:+ base64.EncodeToString (username +:+ ":" +:+ password) →
  AuthenticateRequest a req w
  = AuthenticatePassword (osClient a) username password w.
Proof.
  intros Hscheme Hbasic Hcolon Hheader.
  set (payload := username +:+ ":" +:+ password) in *.
  assert (Hplain : every plain (base64.EncodeToString payload) = true).
  { eapply every_impl; [apply is_base64_plain|apply EncodeToString_is_base64]. }
  assert (Hne : base64.EncodeToString payload ≠ "").
  { apply EncodeToString_nonempty. unfold payload. by destruct username. }
  rewrite AuthenticateRequest_basicAuth, Hheader.
  change (scheme +:+ " " +:+ base64.EncodeToString payload)
    with (scheme +:+ String " " (base64.EncodeToString payload)).
  rewrite <-(append_nil_r (base64.EncodeToString payload)).
  rewrite basicAuth_tokens; [|done|by destruct scheme|done|done|by left].
  rewrite Hbasic. cbn [String.eqb Ascii.eqb Bool.eqb negb andb].
  unfold base64.DecodeString.
  rewrite removeNewlines_plain, decode_EncodeToString by done.
  unfold payload, SplitN.
  change (username +:+ ":" +:+ password)
    with (username +:+ String ":" password).
  by rewrite cut_first.
Qed.

(** X15.  Only the first two tokens of the header count: what follows
    the credentials after a space is not looked at, and the request
    goes to the collaborator as if it were not there. *)
Theorem keystone_tokens_after_credentials_are_ignored a req w username
    password more :
  every (λ c, negb (Ascii.eqb c ":")) username = true →
  every plain more = true → more ≠ "" →
  Get (Request_Header req) "Authorization"
  = "Basic " +:+ base64.EncodeToString (username +:+ ":" +:+ password)
    +:+ " " +:+ more →
  AuthenticateRequest a req w
  = AuthenticatePassword (osClient a) username password w.
Proof.
  intros Hcolon Hmore Hm Hheader.
  set (payload := username +:+ ":" +:+ password) in *.
  assert (Hplain : every plain (base64.EncodeToString payload) = true).
  { eapply every_impl; [apply is_base64_plain|apply EncodeToString_is_base64]. }
  assert (Hne : base64.EncodeToString payload ≠ "").
  { apply EncodeToString_nonempty. unfold payload. by destruct username. }
  rewrite AuthenticateRequest_basicAuth, Hheader.
  change ("Basic " +:+ base64.EncodeToString payload +:+ " " +:+ more)
    with ("Basic" +:+ String " "
            (base64.EncodeToString payload +:+ String " " more)).
  rewrite basicAuth_tokens; [|done|done|done|done|right; by exists more].
  change (negb (String.eqb (ToLower "Basic") "basic")) with false. cbv iota.
  unfold base64.DecodeString.
  rewrite removeNewlines_plain, decode_EncodeToString by done.
  unfold payload, SplitN.
  change (username +:+ ":" +:+ password)
    with (username +:+ String ":" password).
  by rewrite cut_first.
Qed.

(** X16.  Credentials without a colon are turned down with the error
    "malformed basic auth header": the whole payload is not taken for
    a user name with an empty password. *)
Theorem keystone_credentials_without_colon_are_malformed a req w payload :
  payload ≠ "" →
  every (λ c, negb (Ascii.eqb c ":")) payload = true →
  Get (Request_Header req) "Authorization"
  = "Basic " +:+ base64.EncodeToString payload →
  AuthenticateRequest a req w
  = ((None, false, Some (errorString "malformed basic auth header")), w).
Proof.
  intros Hp Hcolon Hheader.
  assert (Hplain : every plain (base64.EncodeToString payload) = true).
  { eapply every_impl; [apply is_base64_plain|apply EncodeToString_is_base64]. }
  assert (Hne : base64.EncodeToString payload ≠ "")
    by by apply EncodeToString_nonempty.
  rewrite AuthenticateRequest_basicAuth, Hheader.
  change ("Basic " +:+ base64.EncodeToString payload)
    with ("Basic" +:+ String " " (base64.EncodeToString payload)).
  rewrite <-(append_nil_r (base64.EncodeToString payload)).
  rewrite basicAuth_tokens; [|done|done|done|done|by left].
  change (negb (String.eqb (ToLower "Basic") "basic")) with false. cbv iota.
  unfold base64.DecodeString.
  rewrite removeNewlines_plain, decode_EncodeToString by done.
  unfold SplitN. by rewrite cut_none.
Qed.

(** X17.  Two spaces between the scheme and the credentials: the header
    is split at every single space, the second token is empty, and the
    request is turned down with "malformed basic auth header" whatever
    the credentials are. *)
Theorem keystone_two_spaces_are_malformed a req w token :
  every plain token = true → token ≠ "" →
  Get (Request_Header req) "Authorization" = "Basic  " +:+ token →
  AuthenticateRequest a req w
  = ((None, false, Some (errorString "malformed basic auth header")), w).
Proof.
  intros Htoken Ht Hheader.
  rewrite AuthenticateRequest_basicAuth, Hheader. unfold basicAuth.
  change ("Basic  " +:+ token) with (String "B" "asic  " +:+ token).
  rewrite TrimSpace_plain_tail by done.
  change (String "B" "asic  " +:+ token)
    with ("Basic" +:+ String " " (String " " token)).
  rewrite Split_first by done. cbn [Split]. rewrite Ascii.eqb_refl.
  by destruct token.
Qed.

End AuthenticatorFurther.

Section ConstructorFurther.
Import strings Authenticator.
Context {W : Type}.
Variable AuthenticatedClient : gophercloud.AuthOptions → State W (option error).

(** X18.  [NewKeystoneAuthenticator] turns an empty URL down with the
    error "Auth URL is empty".  With any other URL it returns an
    authenticator that, for the header of a user name without colon and
    a password, logs in at that URL with that user name and password:
    when the log-in fails, whatever its error, the answer is no user,
    false and "Failed to authenticate"; when it succeeds, the user of
    that name and true. *)
Theorem keystone_new_authenticator_logs_in_at_the_url url :
  (url = "" →
   NewKeystoneAuthenticator AuthenticatedClient url
   = (None, Some (errorString "Auth URL is empty")))
  ∧ (url ≠ "" →
     ∃ a, NewKeystoneAuthenticator AuthenticatedClient url = (Some a, None)
       ∧ ∀ username password w err w',
           every (λ c, negb (Ascii.eqb c ":")) username = true →
           AuthenticatedClient
             {| gophercloud.IdentityEndpoint := url;
                gophercloud.Username := username;
                gophercloud.Password := password |} w = (err, w') →
           AuthenticateRequest a
             (request_with
                ("Basic " +:+ base64.EncodeToString
                                (username +:+ ":" +:+ password))) w
           = (match err with
              | Some _ =>
                  (None, false, Some (errorString "Failed to authenticate"))
              | None => (Some {| Name := username |}, true, None)
              end, w')).
Proof.
  unfold NewKeystoneAuthenticator. split.
  - by intros ->.
  - intros Hurl. destruct (String.eqb_spec url "") as [?|_]; [done|].
    eexists. split; [done|].
    intros username password w err w' Hcolon Hlogin.
    rewrite AuthenticateRequest_basicAuth, Get_request_with.
    rewrite basicAuth_EncodeToString by done.
    cbn [osClient AuthenticatePassword OpenstackClient_Password].
    unfold OpenstackClient_AuthenticatePassword, mbind, State_bind.
    cbn [authURL]. rewrite Hlogin. by destruct err.
Qed.

End ConstructorFurther.

(** ** A union of members without state *)

Section StatelessFurther.
Import Union.
Context {W : Type}.
Variable newAggregate : list error → option error.

Lemma Authorize_range_stateless (verdicts : list (Attributes → option error)) :
  ∀ a errlist (w : W),
    Authorize_range newAggregate (map stateless verdicts) a errlist w
    = (if bool_decide (Exists (λ verdict, verdict a = None) verdicts)
       then None
       else newAggregate (errlist ++ omap (λ verdict, verdict a) verdicts),
       w).
Proof.
  induction verdicts as [|verdict verdicts IH]; intros a errlist w.
  - cbn. by rewrite app_nil_r.
  - cbn [map Authorize_range omap]. unfold mbind at 1, State_bind at 1.
    unfold stateless at 1. cbn [mret State_ret].
    destruct (verdict a) as [e|] eqn:Hv.
    + rewrite IH, <-(assoc_L (++)). cbn [app omap list_omap]. rewrite Hv.
      assert (Exists (λ verdict, verdict a = None) (verdict :: verdicts)
              ↔ Exists (λ verdict, verdict a = None) verdicts) as Hiff.
      { rewrite Exists_cons. split; [|by right].
        intros [?|?]; [congruence|done]. }
      by rewrite (bool_decide_ext _ _ Hiff).
    + rewrite bool_decide_eq_true_2; [done|]. by apply Exists_cons_hd.
Qed.

(** X19.  With members whose answer depends on the attributes only,
    and an [errors.NewAggregate] that answers no list with errors in it
    with nil, a union with members grants exactly when some member
    grants, wherever in the list that member stands; and it leaves the
    world alone. *)
Theorem union_of_stateless_members_grants_iff_one_does verdicts a (w : W) :
  (∀ errs, errs ≠ [] → newAggregate errs ≠ None) →
  verdicts ≠ [] →
  (fst (Authorize newAggregate (map stateless verdicts) a w) = None
   ↔ ∃ verdict, verdict ∈ verdicts ∧ verdict a = None)
  ∧ snd (Authorize newAggregate (map stateless verdicts) a w) = w.
Proof.
  intros Hagg Hne. unfold Authorize. rewrite Authorize_range_stateless.
  cbn [fst snd]. split; [|done]. rewrite <-Exists_exists.
  case_bool_decide as Hex; [done|]. split; [|done].
  intros Hnil. exfalso. apply (Hagg _) in Hnil; [done|].
  destruct verdicts as [|verdict verdicts]; [done|].
  cbn [app omap list_omap].
  destruct (verdict a) eqn:Hv; [done|].
  destruct Hex. by apply Exists_cons_hd.
Qed.

End StatelessFurther.

(** X20.  The password collaborator of the tests looks the user up in
    its table and compares what it finds with the password, and finds
    the empty string for a user who is not in the table: such a user is
    accepted with an empty password, and with no other. *)
Theorem test_collaborator_accepts_unknown_user_with_empty_password
    {W : Type} (username password : string) (w : W) :
  Authenticator.userPasswordMap !! username = None →
  Authenticator.AuthenticatePassword Authenticator.testOpenstackClient
    username password w
  = (if bool_decide (password = "")
     then (Some {| Authenticator.Name := username |}, true, None)
     else (None, false, None), w).
Proof.
  intros Hunknown. cbn [Authenticator.AuthenticatePassword
                         Authenticator.testOpenstackClient].
  rewrite Hunknown. cbn [default].
  destruct (String.eqb_spec "" password) as [<-|Hne]; [done|].
  by rewrite bool_decide_eq_false_2.
Qed.

(** ** The further results at work *)

Section UnionWitnesses.
Import Union.

Lemma union_grant_comes_from_a_member_witness :
  ∃ (k : nat) (h : Authorizer (W := unit)) (w1 : unit),
    [always (Some (errorString "no")); always None] !! k = Some h
    ∧ h {| GetUserName := "alice"; GetNamespace := "dev" |} w1 = (None, tt).
Proof.
  apply (union_grant_comes_from_a_member NewAggregate
           [always (Some (errorString "no")); always None]
           {| GetUserName := "alice"; GetNamespace := "dev" |} tt tt);
    [intros errs _; discriminate | discriminate | reflexivity].
Defined.

Lemma union_of_unions_grants_as_flat_union_witness :
  (fst (Authorize NewAggregate
          (New [Authorize NewAggregate (New [always (Some (errorString "no"))]);
                Authorize NewAggregate (New [always (W := unit) None])])
          {| GetUserName := "alice"; GetNamespace := "dev" |} tt) = None
   ↔ fst (Authorize NewAggregate
            (New ([always (Some (errorString "no"))] ++ [always None]))
            {| GetUserName := "alice"; GetNamespace := "dev" |} tt) = None)
  ∧ snd (Authorize NewAggregate
           (New [Authorize NewAggregate (New [always (Some (errorString "no"))]);
                 Authorize NewAggregate (New [always None])])
           {| GetUserName := "alice"; GetNamespace := "dev" |} tt)
    = snd (Authorize NewAggregate
             (New ([always (Some (errorString "no"))] ++ [always None]))
             {| GetUserName := "alice"; GetNamespace := "dev" |} tt).
Proof.
  apply (union_of_unions_grants_as_flat_union NewAggregate
           [always (Some (errorString "no"))] [always None]
           {| GetUserName := "alice"; GetNamespace := "dev" |} tt);
    [intros errs _; discriminate | discriminate | discriminate].
Defined.

Lemma union_of_stateless_members_grants_iff_one_does_witness :
  (fst (Authorize NewAggregate
          (map stateless
             [λ _, Some (errorString "no");
              λ a, if String.eqb (GetUserName a) "alice" then None
                   else Some (errorString "not alice")])
          {| GetUserName := "alice"; GetNamespace := "dev" |} tt) = None
   ↔ ∃ verdict,
       verdict ∈ [λ _, Some (errorString "no");
                  λ a, if String.eqb (GetUserName a) "alice" then None
                       else Some (errorString "not alice")]
       ∧ verdict {| GetUserName := "alice"; GetNamespace := "dev" |} = None)
  ∧ snd (Authorize NewAggregate
           (map stateless
              [λ _, Some (errorString "no");
               λ a, if String.eqb (GetUserName a) "alice" then None
                    else Some (errorString "not alice")])
           {| GetUserName := "alice"; GetNamespace := "dev" |} tt) = tt.
Proof.
  apply (union_of_stateless_members_grants_iff_one_does NewAggregate
           [λ _, Some (errorString "no");
            λ a, if String.eqb (GetUserName a) "alice" then None
                 else Some (errorString "not alice")]
           {| GetUserName := "alice"; GetNamespace := "dev" |} tt);
    [intros errs _; discriminate | discriminate].
Defined.

End UnionWitnesses.

Section KeystoneWitnesses.
Import Keystone Samples.

Lemma keystone_sync_caches_the_enabled_users_witness :
  ∃ ka',
    syncUserMap {| osClient := listing; userMap := {[ "old" := "1" ]};
                   tenantMap := ∅ |} tt = ((None, ka'), tt)
    ∧ userMap ka' !! "user1" = Some "13"
    ∧ userMap ka' !! "user2" = None
    ∧ userMap ka' !! "old" = None.
Proof.
  destruct (keystone_sync_caches_the_enabled_users
              {| osClient := listing; userMap := {[ "old" := "1" ]};
                 tenantMap := ∅ |} tt _ tt eq_refl)
    as (ka' & Hsync & _ & _ & Hlookup).
  exists ka'. rewrite !Hlookup. repeat split; [exact Hsync|reflexivity..].
Defined.

Lemma keystone_sync_caches_the_enabled_tenants_witness :
  ∃ ka',
    syncTenantMap {| osClient := listing; userMap := ∅;
                     tenantMap := {[ "old" := "1" ]} |} tt = ((None, ka'), tt)
    ∧ tenantMap ka' !! "tenant1" = Some "123"
    ∧ tenantMap ka' !! "tenant2" = None.
Proof.
  destruct (keystone_sync_caches_the_enabled_tenants
              {| osClient := listing; userMap := ∅;
                 tenantMap := {[ "old" := "1" ]} |} tt _ tt eq_refl)
    as (ka' & Hsync & _ & _ & Hlookup).
  exists ka'. rewrite !Hlookup. repeat split; [exact Hsync|reflexivity..].
Defined.




Lemma keystone_sync_locks_out_unlisted_users_witness :
  Authorize
    (snd (fst (syncUserMap
                 {| osClient := paged [] [inr ["user2"]] [];
                    userMap := {[ "user1" := "12" ]};
                    tenantMap := {[ "tenant1" := "123" ]} |} 0)))
    {| GetUserName := "user1"; GetNamespace := "tenant1" |} 1
  = (Some (errorString "Keystone authorization failed"), 1).
Proof.
  refine (keystone_sync_locks_out_unlisted_users
           (λ _ _ calls, ([], S calls))
           (λ calls, ([inr ["user2"]], S calls))
           (λ calls, ([], S calls))
           (read id) (read as_user) (read as_tenant)
           {[ "user1" := "12" ]} {[ "tenant1" := "123" ]}
           {| GetUserName := "user1"; GetNamespace := "tenant1" |}
           0 [as_user "user2"] 1 _ _ _ _ 1);
    [reflexivity | reflexivity | reflexivity |].
  repeat constructor. intros [_ Hname]. discriminate Hname.
Defined.

End KeystoneWitnesses.

Section AuthenticatorWitnesses.
Import Authenticator Samples.

Lemma keystone_blank_header_is_an_error_witness :
  AuthenticateRequest counting_authenticator (request_with "  ") 0
  = ((None, false,
      Some (errorString "Authorization header isempty, failing request")), 0).
Proof.
  apply (keystone_blank_header_is_an_error counting_authenticator (request_with "  ") 0).
  reflexivity.
Defined.

Lemma keystone_one_token_header_is_invalid_witness :
  AuthenticateRequest counting_authenticator (request_with "Basic") 0
  = ((None, false, Some (errorString "invalid header")), 0).
Proof.
  apply (keystone_one_token_header_is_invalid counting_authenticator (request_with "Basic") 0);
    [discriminate | reflexivity].
Defined.

Lemma keystone_other_scheme_is_invalid_witness :
  AuthenticateRequest counting_authenticator (request_with "Bearer foo") 0
  = ((None, false, Some (errorString "invalid header")), 0).
Proof.
  apply (keystone_other_scheme_is_invalid counting_authenticator (request_with "Bearer foo") 0
           "Bearer" "foo");
    [reflexivity | discriminate | reflexivity | discriminate | discriminate
    | reflexivity].
Defined.

Lemma keystone_scheme_is_case_insensitive_witness :
  AuthenticateRequest counting_authenticator
    (request_with ("bAsIc" +:+ " " +:+ base64.EncodeToString ("user1" +:+ ":" +:+ "password1")))
    0
  = ((Some {| Name := "user1" |}, true, None), 1).
Proof.
  apply (keystone_scheme_is_case_insensitive counting_authenticator
           (request_with
              ("bAsIc" +:+ " " +:+ base64.EncodeToString ("user1" +:+ ":" +:+ "password1")))
           0 "bAsIc" "user1" "password1");
    reflexivity.
Defined.

Lemma keystone_tokens_after_credentials_are_ignored_witness :
  AuthenticateRequest counting_authenticator
    (request_with
       ("Basic " +:+ base64.EncodeToString ("user1" +:+ ":" +:+ "password1")
        +:+ " " +:+ "anything"))
    0
  = ((Some {| Name := "user1" |}, true, None), 1).
Proof.
  apply (keystone_tokens_after_credentials_are_ignored counting_authenticator
           (request_with
              ("Basic " +:+ base64.EncodeToString ("user1" +:+ ":" +:+ "password1")
               +:+ " " +:+ "anything"))
           0 "user1" "password1" "anything");
    [reflexivity | reflexivity | discriminate | reflexivity].
Defined.

Lemma keystone_credentials_without_colon_are_malformed_witness :
  AuthenticateRequest counting_authenticator
    (request_with ("Basic " +:+ base64.EncodeToString "user_without_password")) 0
  = ((None, false, Some (errorString "malformed basic auth header")), 0).
Proof.
  apply (keystone_credentials_without_colon_are_malformed counting_authenticator
           (request_with
              ("Basic " +:+ base64.EncodeToString "user_without_password"))
           0 "user_without_password");
    [discriminate | reflexivity | reflexivity].
Defined.

Lemma keystone_two_spaces_are_malformed_witness :
  AuthenticateRequest counting_authenticator
    (request_with ("Basic  " +:+ "dXNlcjE6cGFzc3dvcmQx")) 0
  = ((None, false, Some (errorString "malformed basic auth header")), 0).
Proof.
  apply (keystone_two_spaces_are_malformed counting_authenticator
           (request_with ("Basic  " +:+ "dXNlcjE6cGFzc3dvcmQx")) 0
           "dXNlcjE6cGFzc3dvcmQx");
    [reflexivity | discriminate | reflexivity].
Defined.

Lemma keystone_new_authenticator_logs_in_at_the_url_witness :
  ∃ a,
    NewKeystoneAuthenticator (provider {[ "user1" := "password1" ]})
      "https://auth-url/v2.0" = (Some a, None)
    ∧ AuthenticateRequest a
        (request_with
           ("Basic " +:+ base64.EncodeToString ("user1" +:+ ":" +:+ "password1")))
        tt
      = ((Some {| Name := "user1" |}, true, None), tt).
Proof.
  destruct (proj2 (keystone_new_authenticator_logs_in_at_the_url
                     (provider {[ "user1" := "password1" ]})
                     "https://auth-url/v2.0"))
    as (a & Hnew & Hlogin); [discriminate|].
  exists a. split; [exact Hnew|].
  apply (Hlogin "user1" "password1" tt None tt); reflexivity.
Defined.

Lemma test_collaborator_accepts_unknown_user_with_empty_password_witness :
  AuthenticatePassword testOpenstackClient "nobody" "" tt
  = ((Some {| Name := "nobody" |}, true, None), tt).
Proof.
  apply (test_collaborator_accepts_unknown_user_with_empty_password
           "nobody" "" tt).
  reflexivity.
Defined.

End AuthenticatorWitnesses.
